(** * Wetterpendeln: radar timeline and location store

    A shallow embedding of the core of the application, in three parts:

    - [Radar]: the playback state of [RadarView]
      (src/components/views/radar-view.tsx, and its older sibling
      src/unnamed/part_001 whose playback code is the same line for line);
    - [Tile]: the slippy-map tile expressions of both radar views, over an
      interface of the operations they use; [TileDoubles] reads the interface
      in IEEE double arithmetic;
    - [LocationStore]: the [LocationProvider] of src/unnamed/part_000 with its
      two effects (rehydrate, persist) and its three operations;
    - [RadarDisplay], [LocationDisplay]: what the radar view derives from its
      state and from the store for display (frame on screen, texts, active
      button, map centre);
    - [LegacyView]: the location handling of the older radar view
      (src/unnamed/part_001).

    React state is modelled by explicit state passing: a component's
    [useState] cells are the fields of a record, a setter is a function on
    that record, and an event handler or effect is the composition of the
    setters it calls. *)

From Stdlib Require Import ZArith List String Bool Lia QArith Qround Reals Lra.
From Stdlib Require Import Floats.PrimFloat Floats.SpecFloat Floats.FloatOps Uint63.
From stdpp Require Import base option gmap strings pretty.

Local Open Scope Z_scope.

(** Calls are written in the order the source makes them. *)
Notation "s |> f" := (f s) (at level 45, left associativity, only parsing).

(* ===================================================================== *)
(** * The radar timeline *)
(* ===================================================================== *)

Module Radar.

(** ** Numbers

    Every number the playback code handles is an array length, a frame
    index or a count of minutes, so the finite values are integers; the one
    non-finite value the code can make itself is [NaN], from [% 0]. *)
Inductive jsnum : Type :=
  | Int (z : Z)
  | NaN.

(** [a + b] *)
Definition js_add (a b : jsnum) : jsnum :=
  match a, b with
  | Int x, Int y => Int (x + y)
  | _, _ => NaN
  end.

(** [a % b]: the sign follows the dividend, and [% 0] is [NaN]. *)
Definition js_rem (a b : jsnum) : jsnum :=
  match a, b with
  | Int x, Int y => if y =? 0 then NaN else Int (Z.rem x y)
  | _, _ => NaN
  end.

(** ** Data *)

Record Frame : Type := { time : Z; path : string }.

(** [RainViewerData["radar"]]. The source reads both arrays through
    [|| []] and [?.length || 0], so a missing array is allowed for. *)
Record RadarFrames : Type := {
  past : option (list Frame);
  nowcast : option (list Frame)
}.

Record RainViewerData : Type := { radar : RadarFrames }.

(** [a || []] *)
Definition orEmpty (a : option (list Frame)) : list Frame :=
  match a with Some l => l | None => [] end.

(** [a?.length || 0] *)
Definition lengthOr0 (a : option (list Frame)) : Z :=
  match a with Some l => Z.of_nat (length l) | None => 0 end.

(** The [useState] cells of [RadarView]. *)
Record State : Type := {
  radarData : option RainViewerData;
  currentFrame : jsnum;
  isPlaying : bool;
  loading : bool;
  error : option string
}.

Definition initial : State :=
  {| radarData := None; currentFrame := Int 0; isPlaying := false;
     loading := true; error := None |}.

Definition setRadarData (d : option RainViewerData) (s : State) : State :=
  {| radarData := d; currentFrame := currentFrame s; isPlaying := isPlaying s;
     loading := loading s; error := error s |}.

Definition setCurrentFrame (f : jsnum -> jsnum) (s : State) : State :=
  {| radarData := radarData s; currentFrame := f (currentFrame s);
     isPlaying := isPlaying s; loading := loading s; error := error s |}.

Definition setIsPlaying (b : bool) (s : State) : State :=
  {| radarData := radarData s; currentFrame := currentFrame s; isPlaying := b;
     loading := loading s; error := error s |}.

Definition setLoading (b : bool) (s : State) : State :=
  {| radarData := radarData s; currentFrame := currentFrame s;
     isPlaying := isPlaying s; loading := b; error := error s |}.

Definition setError (e : option string) (s : State) : State :=
  {| radarData := radarData s; currentFrame := currentFrame s;
     isPlaying := isPlaying s; loading := loading s; error := e |}.

(** ** Derived values of a render *)

(** [[...(radarData.radar.past || []), ...(radarData.radar.nowcast || [])]] *)
Definition framesOf (d : RainViewerData) : list Frame :=
  orEmpty (past (radar d)) ++ orEmpty (nowcast (radar d)).

(** [const allFrames = radarData ? [...] : []] *)
Definition allFrames (s : State) : list Frame :=
  match radarData s with
  | Some d => framesOf d
  | None => []
  end.

Definition totalFrames (s : State) : Z := Z.of_nat (length (allFrames s)).

(** [const pastFrameCount = radarData?.radar.past?.length || 0] *)
Definition pastFrameCount (s : State) : Z :=
  match radarData s with
  | Some d => lengthOr0 (past (radar d))
  | None => 0
  end.

(** ** Operations *)

(** [loadRadarData]: [resp] is the parsed manifest, or [None] when [fetch]
    or [response.json()] throws. *)
Definition loadRadarData (resp : option RainViewerData) (s : State) : State :=
  match resp with
  | Some data =>
      let pastFrames := lengthOr0 (past (radar data)) in
      s |> setRadarData (Some data)
        |> setCurrentFrame (fun _ => Int (Z.max 0 (pastFrames - 1)))
  | None => s |> setError (Some "Radardaten konnten nicht geladen werden"%string)
  end.

(** One firing of the playback interval. The effect installs the interval
    only past [if (!isPlaying || !radarData) return]; the callback is
    [setCurrentFrame((prev) => (prev + 1) % allFrames.length)]. *)
Definition tick (s : State) : State :=
  match radarData s with
  | Some d =>
      if isPlaying s then
        s |> setCurrentFrame
               (fun prev => js_rem (js_add prev (Int 1))
                                   (Int (Z.of_nat (length (framesOf d)))))
      else s
  | None => s
  end.

(** [getMinutesOffset] *)
Definition getMinutesOffset (s : State) (frameIndex : Z) : Z :=
  match radarData s with
  | None => 0
  | Some d => (frameIndex - lengthOr0 (past (radar d)) + 1) * 10
  end.

(** [jumpToTime]; [Math.floor(minutesFromNow / 10)] on an integer is the
    floored quotient [Z.div]. *)
Definition jumpToTime (minutesFromNow : Z) (s : State) : State :=
  match radarData s with
  | None => s
  | Some d =>
      let pastCount := lengthOr0 (past (radar d)) in
      let targetFrame := pastCount - 1 + minutesFromNow / 10 in
      let clampedFrame := Z.max 0 (Z.min (totalFrames s - 1) targetFrame) in
      s |> setCurrentFrame (fun _ => Int clampedFrame) |> setIsPlaying false
  end.

(** Nothing of the view is on screen while [loading]: the render returns the
    spinner first ([if (loading) return ...]). *)
Definition shown (s : State) : bool := negb (loading s).

(** The playback controls exist only under [{allFrames.length > 0 && (...)}]. *)
Definition controlsRendered (s : State) : bool :=
  shown s && (0 <? totalFrames s).

(** A control that is not rendered cannot fire. *)
Definition whenRendered (h : State -> State) (s : State) : State :=
  if controlsRendered s then h s else s.

(** Play/pause button: [onClick={() => setIsPlaying(!isPlaying)}]. *)
Definition togglePlay : State -> State :=
  whenRendered (fun s => s |> setIsPlaying (negb (isPlaying s))).

(** Skip buttons: [setCurrentFrame(0)] and
    [setCurrentFrame(allFrames.length - 1)]. *)
Definition skipBack : State -> State :=
  whenRendered (setCurrentFrame (fun _ => Int 0)).

Definition skipForward : State -> State :=
  whenRendered (fun s => s |> setCurrentFrame (fun _ => Int (totalFrames s - 1))).

(** Modelled from the spec: the [Slider] component (components/ui/slider) is
    not among the sources. The spec has [scrub(index)] set the index "to a
    clamped value in [0, totalFrames-1]"; the view passes [max] and leaves
    the lower end at the component's default, so the component is taken to
    report the requested position clamped between 0 and [max]. *)
Definition Slider_value (max requested : Z) : Z :=
  Z.max 0 (Z.min max requested).

(** [<Slider max={allFrames.length - 1} step={1}
      onValueChange={([value]) => setCurrentFrame(value)} />] *)
Definition scrub (requested : Z) : State -> State :=
  whenRendered (fun s =>
    s |> setCurrentFrame (fun _ => Int (Slider_value (totalFrames s - 1) requested))).

(** The quick-select buttons: [onClick={() => jumpToTime(minutes)}]. *)
Definition quickSelect (minutes : Z) (s : State) : State :=
  if shown s then jumpToTime minutes s else s.

(** The mount effect: [setLoading(true); await loadRadarData();
    setLoading(false)], seen from the moment the request settles. *)
Definition init (resp : option RainViewerData) (s : State) : State :=
  s |> setLoading true |> loadRadarData resp |> setLoading false.

(** Everything that can happen to a mounted view. *)
Inductive Event : Type :=
  | Loaded (resp : option RainViewerData)
  | Tick
  | TogglePlay
  | Scrub (requested : Z)
  | QuickSelect (minutes : Z)
  | SkipBack
  | SkipForward.

Definition handle (e : Event) (s : State) : State :=
  match e with
  | Loaded resp => init resp s
  | Tick => tick s
  | TogglePlay => togglePlay s
  | Scrub v => scrub v s
  | QuickSelect m => quickSelect m s
  | SkipBack => skipBack s
  | SkipForward => skipForward s
  end.

Definition run (es : list Event) (s : State) : State :=
  fold_left (fun st e => handle e st) es s.

(** [loadRadarData] has one caller, the mount effect, so the events that
    follow the load are of the other kinds. *)
Definition afterLoad (e : Event) : bool :=
  match e with Loaded _ => false | _ => true end.

(** ** Predicates *)

(** [0 <= currentFrameIndex < totalFrames], the index being a number. *)
Definition inBounds (s : State) : Prop :=
  exists i, currentFrame s = Int i /\ 0 <= i < totalFrames s.

Definition inBoundsb (s : State) : bool :=
  match currentFrame s with
  | Int i => (0 <=? i) && (i <? totalFrames s)
  | NaN => false
  end.

(** What holds of a view from its load on: playback is on only over
    frames, and over frames the index is in bounds. *)
Definition steady (s : State) : Prop :=
  (isPlaying s = true -> 1 <= totalFrames s) /\
  (1 <= totalFrames s -> inBounds s).

(** The clamp of the spec's words: [x] brought into [[lo, hi]]. *)
Definition clamp (lo hi x : Z) : Z :=
  if x <? lo then lo else if hi <? x then hi else x.

(** ** Sample data *)

Definition frameAt (t : Z) : Frame :=
  {| time := t; path := "/v2/radar/sample" |}.

(** Three past frames and two forecast frames, ten minutes apart. *)
Definition sampleManifest : RainViewerData :=
  {| radar := {| past := Some [frameAt 1700000000; frameAt 1700000600; frameAt 1700001200];
                 nowcast := Some [frameAt 1700001800; frameAt 1700002400] |} |}.

(** [past = []], [nowcast = []]. *)
Definition emptyManifest : RainViewerData :=
  {| radar := {| past := Some []; nowcast := Some [] |} |}.

(** The view once [sampleManifest] has arrived, and with playback started. *)
Definition sampleReady : State := init (Some sampleManifest) initial.
Definition samplePlaying : State := togglePlay sampleReady.

(** Three frames, the view playing from the last past frame. *)
Definition threeFrames : RainViewerData :=
  {| radar := {| past := Some [frameAt 1700000000; frameAt 1700000600];
                 nowcast := Some [frameAt 1700001200] |} |}.
Definition threePlaying : State := togglePlay (init (Some threeFrames) initial).

(** The view once [emptyManifest] has arrived. *)
Definition emptyReady : State := init (Some emptyManifest) initial.

(** A playing view over an empty manifest. *)
Definition playingOnNothing : State :=
  {| radarData := Some emptyManifest; currentFrame := Int 0; isPlaying := true;
     loading := false; error := None |}.

End Radar.

(* ===================================================================== *)
(** * Tile coordinates *)
(* ===================================================================== *)

Module Tile.

(** The tile expressions work on IEEE doubles and on [Math] built-ins whose
    results the language leaves to the engine. They are embedded over an
    interface that names each operation the source uses and fixes none of
    them. *)
Class JSMath (num : Type) : Type := {
  lit : Z -> num;                 (* an integer literal: 1, 2, 7, 128, ... *)
  add : num -> num -> num;
  sub : num -> num -> num;
  mul : num -> num -> num;
  div : num -> num -> num;
  Math_PI : num;
  Math_floor : num -> num;
  Math_log : num -> num;
  Math_tan : num -> num;
  Math_cos : num -> num;
  Math_pow : num -> num -> num
}.

Declare Scope js_scope.
Delimit Scope js_scope with js.
Infix "+" := add : js_scope.
Infix "-" := sub : js_scope.
Infix "*" := mul : js_scope.
Infix "/" := div : js_scope.

Record TileCoords (num : Type) : Type := { x : num; y : num }.
Arguments x {num} _.
Arguments y {num} _.

Section Expressions.
Context {num : Type} `{JSMath num}.
Local Open Scope js_scope.

(** [getTileCoords] of the current view. *)
Definition getTileCoords (lat lon zoom : num) : TileCoords num :=
  let x := Math_floor (((lon + lit 180) / lit 360) * Math_pow (lit 2) zoom) in
  let y := Math_floor
             (((lit 1 - Math_log (Math_tan ((lat * Math_PI) / lit 180)
                                  + lit 1 / Math_cos ((lat * Math_PI) / lit 180))
                        / Math_PI) / lit 2)
              * Math_pow (lit 2) zoom) in
  {| x := x; y := y |}.

(** The older view writes the two expressions inline, twice (base map and
    radar layer), in URLs whose zoom segment is the literal [7]. *)
Definition legacyTileX (lon : num) : num :=
  Math_floor (((lon + lit 180) / lit 360) * lit 128).

Definition legacyTileY (lat : num) : num :=
  Math_floor
    (((lit 1 - Math_log (Math_tan ((lat * Math_PI) / lit 180)
                         + lit 1 / Math_cos ((lat * Math_PI) / lit 180))
               / Math_PI) / lit 2)
     * lit 128).

Definition legacyTile (lat lon : num) : TileCoords num :=
  {| x := legacyTileX lon; y := legacyTileY lat |}.
End Expressions.

(** The interface read over the real numbers: exact arithmetic, the
    mathematical functions, [Math.floor] as the integer part. *)
#[export] Instance RealMath : JSMath R := {|
  lit := IZR;
  add := Rplus;
  sub := Rminus;
  mul := Rmult;
  div := Rdiv;
  Math_PI := PI;
  Math_floor := fun r => IZR (Int_part r);
  Math_log := ln;
  Math_tan := tan;
  Math_cos := cos;
  Math_pow := Rpower
|}.

End Tile.

(* ===================================================================== *)
(** * The location store *)
(* ===================================================================== *)

Module LocationStore.

(** ** Numbers

    A coordinate or a timestamp is a double. The store does no arithmetic
    on them; what matters is whether a value is finite, because
    [JSON.stringify] writes the three others as [null]. A finite double is a
    rational number ([-0] is not told apart from [0], as [===] does not). *)
Inductive number : Type :=
  | Fin (q : Q)
  | NaN
  | PosInfinity
  | NegInfinity.

Definition isFinite (n : number) : bool :=
  match n with Fin _ => true | _ => false end.

(** ** JSON *)

(** A JSON document. *)
#[local] Unset Elimination Schemes.
Inductive json : Type :=
  | JNull
  | JBool (b : bool)
  | JNum (q : Q)
  | JStr (s : string)
  | JArr (items : list json)
  | JObj (members : list (string * json)).
#[local] Set Elimination Schemes.

(** A string held by [localStorage], told apart by what [JSON.parse] makes
    of it: the text of a document, or text that does not parse. The
    characters of a well-formed text are not modelled: [JSON.parse] gives back
    the document [JSON.stringify] was given. *)
Inductive text : Type :=
  | Document (doc : json)
  | Malformed (raw : string).

Definition JSON_stringify (doc : json) : text := Document doc.

(** [None] stands for the [SyntaxError] thrown. *)
Definition JSON_parse (t : text) : option json :=
  match t with
  | Document doc => Some doc
  | Malformed _ => None
  end.

(** [if (saved)]: only the empty string is falsy. *)
Definition truthy (t : text) : bool :=
  match t with
  | Document _ => true
  | Malformed raw => negb (String.eqb raw EmptyString)
  end.

(** What [JSON.stringify] writes for a number, and for [number | null]. *)
Definition json_of_number (n : number) : json :=
  match n with
  | Fin q => JNum q
  | NaN | PosInfinity | NegInfinity => JNull
  end.

Definition json_of_nullable (o : option number) : json :=
  match o with
  | Some n => json_of_number n
  | None => JNull
  end.

(** Property lookup on a parsed object; of a repeated key [JSON.parse] keeps
    the last. *)
Fixpoint member (k : string) (ms : list (string * json)) : option json :=
  match ms with
  | [] => None
  | (k', v) :: rest =>
      match member k rest with
      | Some later => Some later
      | None => if String.eqb k k' then Some v else None
      end
  end.

(** ** State *)

Inductive LocationSource : Type := gps | manual.

Record LocationState : Type := {
  lat : option number;
  lon : option number;
  cityLabel : string;
  source : LocationSource;
  lastUpdated : number
}.

Definition DEFAULT_LOCATION : LocationState :=
  {| lat := None; lon := None; cityLabel := EmptyString; source := manual;
     lastUpdated := Fin 0 |}.

Definition LOCATION_STORAGE_KEY : string := "wetterpendeln-location-state".
Definition LEGACY_STORAGE_KEY : string := "wetterpendeln-last-location".

Definition string_of_source (src : LocationSource) : string :=
  match src with gps => "gps" | manual => "manual" end.

(** [JSON.stringify(location)] *)
Definition json_of_LocationState (l : LocationState) : json :=
  JObj [ ("lat", json_of_nullable (lat l));
         ("lon", json_of_nullable (lon l));
         ("cityLabel", JStr (cityLabel l));
         ("source", JStr (string_of_source (source l)));
         ("lastUpdated", json_of_number (lastUpdated l)) ]%string.

(** [JSON.stringify({ lat: location.lat, lon: location.lon,
                      name: location.cityLabel })] *)
Definition json_of_legacy (l : LocationState) : json :=
  JObj [ ("lat", json_of_nullable (lat l));
         ("lon", json_of_nullable (lon l));
         ("name", JStr (cityLabel l)) ]%string.

(** Reading a parsed value at the type the source gives it. [setLocation(parsed)]
    checks nothing; [None] marks a value that has not the shape of a
    [LocationState], which this typed embedding cannot hold. *)
Definition nullable_of_json (j : json) : option (option number) :=
  match j with
  | JNull => Some None
  | JNum q => Some (Some (Fin q))
  | _ => None
  end.

Definition source_of_json (j : json) : option LocationSource :=
  match j with
  | JStr s => if String.eqb s "gps" then Some gps
              else if String.eqb s "manual" then Some manual
              else None
  | _ => None
  end.

Definition LocationState_of_json (j : json) : option LocationState :=
  match j with
  | JObj ms =>
      match member "lat" ms, member "lon" ms, member "cityLabel" ms,
            member "source" ms, member "lastUpdated" ms with
      | Some jlat, Some jlon, Some (JStr label), Some jsrc, Some (JNum t) =>
          match nullable_of_json jlat, nullable_of_json jlon, source_of_json jsrc with
          | Some la, Some lo, Some src =>
              Some {| lat := la; lon := lo; cityLabel := label; source := src;
                      lastUpdated := Fin t |}
          | _, _, _ => None
          end
      | _, _, _, _, _ => None
      end
  | _ => None
  end.

(** The [useState] cells of [LocationProvider]. *)
Record Store : Type := {
  location : LocationState;
  isLoading : bool;
  error : option string
}.

Definition initialStore : Store :=
  {| location := DEFAULT_LOCATION; isLoading := false; error := None |}.

Definition setLocation (l : LocationState) (s : Store) : Store :=
  {| location := l; isLoading := isLoading s; error := error s |}.

Definition setIsLoading (b : bool) (s : Store) : Store :=
  {| location := location s; isLoading := b; error := error s |}.

Definition setError (e : option string) (s : Store) : Store :=
  {| location := location s; isLoading := isLoading s; error := e |}.

(** ** Durable storage *)

(** [localStorage]: the items, and whether it takes writes ([setItem] throws
    when the quota is used up or storage is turned off). *)
Record Storage : Type := {
  items : gmap string text;
  writable : bool
}.

Definition getItem (k : string) (st : Storage) : option text := items st !! k.

(** [None] stands for the exception thrown. *)
Definition setItem (k : string) (v : text) (st : Storage) : option Storage :=
  if writable st
  then Some {| items := <[k := v]> (items st); writable := writable st |}
  else None.

(** The effect that loads on mount, in a browser ([window] is defined). The
    result is [None] only when the stored document has not the shape of a
    [LocationState]. *)
Definition rehydrate (st : Storage) (s : Store) : option Store :=
  match getItem LOCATION_STORAGE_KEY st with
  | Some saved =>
      if truthy saved then
        match JSON_parse saved with
        | Some parsed =>
            match LocationState_of_json parsed with
            | Some l => Some (s |> setLocation l)
            | None => None
            end
        | None => Some s      (* catch: console.error *)
        end
      else Some s
  | None => Some s
  end.

(** The effect that saves when [location] changes, in a browser. Both writes
    are under one [try]: when the first throws the second is not made. *)
Definition persist (s : Store) (st : Storage) : Storage :=
  match lat (location s), lon (location s) with
  | Some _, Some _ =>
      match setItem LOCATION_STORAGE_KEY
                    (JSON_stringify (json_of_LocationState (location s))) st with
      | Some st1 =>
          match setItem LEGACY_STORAGE_KEY
                        (JSON_stringify (json_of_legacy (location s))) st1 with
          | Some st2 => st2
          | None => st1       (* catch: console.error *)
          end
      | None => st            (* catch: console.error *)
      end
  | _, _ => st
  end.

(** ** The platform *)

(** What [navigator.geolocation] does with [getCurrentPosition]. *)
Inductive Geolocation : Type :=
  | Unsupported                                (* [!navigator.geolocation] *)
  | Position (latitude longitude : number)     (* success callback *)
  | PositionError (code : Z).                  (* error callback *)

(** [GeolocationPositionError] *)
Definition PERMISSION_DENIED : Z := 1.
Definition POSITION_UNAVAILABLE : Z := 2.
Definition TIMEOUT : Z := 3.

(** What the reverse-geocoding request comes to: [fetch] or
    [response.json()] throws, or [data.results?.[0]?.name] is read. *)
Inductive ReverseGeocoding : Type :=
  | Throws
  | Name (name : option string).

(** How a promise settles. *)
Inductive Settled : Type := Resolved | Rejected.

(** ** Operations *)

Local Open Scope string_scope.

Definition FALLBACK_LABEL : string := "Aktueller Standort".

(** [x || "Aktueller Standort"]: [undefined] and the empty string are falsy. *)
Definition orFallback (name : option string) : string :=
  match name with
  | Some n => if String.eqb n EmptyString then FALLBACK_LABEL else n
  | None => FALLBACK_LABEL
  end.

(** The [switch (err.code)] of the error callback. *)
Definition errorMessage (code : Z) : string :=
  if (code =? PERMISSION_DENIED)%Z then
    "Standortzugriff wurde verweigert. Bitte Standortfreigabe im Browser aktivieren oder PLZ/Ort eingeben."
  else if (code =? POSITION_UNAVAILABLE)%Z then
    "Standortinformationen sind nicht verfügbar."
  else if (code =? TIMEOUT)%Z then
    "Zeitüberschreitung bei der Standortabfrage."
  else
    "Ein unbekannter Fehler ist aufgetreten.".

Definition gpsLocation (latitude longitude : number) (label : string) (now : Z)
  : LocationState :=
  {| lat := Some latitude; lon := Some longitude; cityLabel := label;
     source := gps; lastUpdated := Fin (inject_Z now) |}.

(** [updateFromGPS]; [now] is what [Date.now()] returns in the callback. *)
Definition updateFromGPS (geo : Geolocation) (rev : ReverseGeocoding) (now : Z)
    (s : Store) : Store * Settled :=
  match geo with
  | Unsupported =>
      (s |> setError (Some "Geolocation wird von Ihrem Browser nicht unterstützt."),
       Resolved)
  | Position latitude longitude =>
      let s := s |> setIsLoading true |> setError None in
      let s :=
        match rev with
        | Name name =>
            s |> setLocation (gpsLocation latitude longitude (orFallback name) now)
        | Throws =>
            s |> setLocation (gpsLocation latitude longitude FALLBACK_LABEL now)
        end in
      (s |> setIsLoading false, Resolved)
  | PositionError code =>
      let s := s |> setIsLoading true |> setError None in
      (s |> setIsLoading false |> setError (Some (errorMessage code)), Resolved)
  end.

(** [updateManual] *)
Definition updateManual (lat lon : number) (label : string) (now : Z)
    (s : Store) : Store :=
  s |> setLocation {| lat := Some lat; lon := Some lon; cityLabel := label;
                      source := manual; lastUpdated := Fin (inject_Z now) |}
    |> setError None.

(** [clearError] *)
Definition clearError (s : Store) : Store := s |> setError None.

(** ** The provider over its lifetime *)

(** The provider's state together with the storage it saves to. *)
Record App : Type := { store : Store; disk : Storage }.

(** The persist effect depends on [[location]]: it runs after every
    [setLocation]. *)
Definition saved (s : Store) (st : Storage) : App :=
  {| store := s; disk := persist s st |}.

(** A page load: the first render holds the defaults (the persist effect
    finds [lat] null and writes nothing), then the rehydrate effect may set
    the stored record, after which the persist effect runs on it. *)
Definition mount (st : Storage) : option App :=
  match rehydrate st initialStore with
  | Some s => Some (saved s st)
  | None => None
  end.

Inductive Action : Type :=
  | Manual (lat lon : number) (label : string) (now : Z)
  | GPS (geo : Geolocation) (rev : ReverseGeocoding) (now : Z)
  | ClearError
  | Reload.

Definition act (a : Action) (w : App) : option App :=
  match a with
  | Manual la lo label now => Some (saved (updateManual la lo label now (store w)) (disk w))
  | GPS geo rev now =>
      let s := fst (updateFromGPS geo rev now (store w)) in
      match geo with
      | Position _ _ => Some (saved s (disk w))
      | _ => Some {| store := s; disk := disk w |}
      end
  | ClearError => Some {| store := clearError (store w); disk := disk w |}
  | Reload => mount (disk w)
  end.

Fixpoint acts (l : list Action) (w : App) : option App :=
  match l with
  | [] => Some w
  | a :: rest =>
      match act a w with
      | Some w' => acts rest w'
      | None => None
      end
  end.

(** A session: a page load, then actions. *)
Definition session (st : Storage) (l : list Action) : option App :=
  match mount st with
  | Some w => acts l w
  | None => None
  end.

(** ** Predicates *)

(** [lat] and [lon] both present or both absent. *)
Definition paired (l : LocationState) : Prop :=
  (lat l = None /\ lon l = None) \/ (exists a b, lat l = Some a /\ lon l = Some b).

Definition pairedb (l : LocationState) : bool :=
  match lat l, lon l with
  | None, None | Some _, Some _ => true
  | _, _ => false
  end.

Definition finiteOrNull (o : option number) : bool :=
  match o with Some n => isFinite n | None => true end.

(** No field would be written as [null] in place of a number. *)
Definition finiteState (l : LocationState) : bool :=
  finiteOrNull (lat l) && finiteOrNull (lon l) && isFinite (lastUpdated l).

(** The coordinates an action brings in are finite. *)
Definition finiteAction (a : Action) : bool :=
  match a with
  | Manual la lo _ _ => isFinite la && isFinite lo
  | GPS (Position la lo) _ _ => isFinite la && isFinite lo
  | _ => true
  end.

(** What the primary key holds, read the way [rehydrate] reads it. *)
Definition storedRecord (st : Storage) : option json :=
  match getItem LOCATION_STORAGE_KEY st with
  | Some t => if truthy t then JSON_parse t else None
  | None => None
  end.

(** The primary key holds nothing readable, or a record of a state with
    both coordinates and finite numbers, as the persist effect writes them. *)
Definition storedSound (st : Storage) : Prop :=
  forall doc, storedRecord st = Some doc ->
    exists l, doc = json_of_LocationState l /\
              pairedb l = true /\ finiteState l = true.

(** ** The error kinds of the spec *)

(** "one of four user-facing message kinds — permission denied, position
    unavailable, timeout, unknown" *)
Inductive ErrorKind : Type :=
  | PermissionDenied
  | PositionUnavailable
  | TimedOut
  | Unknown.

(** The kind a platform error code stands for. *)
Definition kindOfCode (code : Z) : ErrorKind :=
  match code with
  | 1%Z => PermissionDenied
  | 2%Z => PositionUnavailable
  | 3%Z => TimedOut
  | _ => Unknown
  end.

(** The message shown for a kind. *)
Definition messageOfKind (k : ErrorKind) : string :=
  match k with
  | PermissionDenied =>
      "Standortzugriff wurde verweigert. Bitte Standortfreigabe im Browser aktivieren oder PLZ/Ort eingeben."
  | PositionUnavailable => "Standortinformationen sind nicht verfügbar."
  | TimedOut => "Zeitüberschreitung bei der Standortabfrage."
  | Unknown => "Ein unbekannter Fehler ist aufgetreten."
  end.

(** What holds of the provider and its storage between actions. *)
Definition sound (w : App) : Prop :=
  pairedb (location (store w)) = true /\
  finiteState (location (store w)) = true /\
  storedSound (disk w).

(** ** Sample data *)

(** Storage with nothing in it. *)
Definition emptyDisk : Storage := {| items := ∅; writable := true |}.

(** A record with a latitude and no longitude, as another writer of the
    same origin (an older build, a developer console) may leave it. *)
Definition partialRecord : json :=
  JObj [ ("lat", JNum 50); ("lon", JNull); ("cityLabel", JStr "X");
         ("source", JStr "manual"); ("lastUpdated", JNum 1) ]%string.

Definition partialDisk : Storage :=
  {| items := {[ LOCATION_STORAGE_KEY := Document partialRecord ]};
     writable := true |}.

(** Berlin, entered by hand; then a reload; then a GPS fix for Hamburg whose
    reverse geocoding fails; then a refused GPS request; then a reload. *)
Definition sampleActions : list Action :=
  [ Manual (Fin (1313 # 25)) (Fin (2681 # 200)) "Berlin" 1700000000000;
    Reload;
    GPS (Position (Fin (5355 # 100)) (Fin (999 # 100))) Throws 1700000060000;
    GPS (PositionError PERMISSION_DENIED) Throws 1700000120000;
    Reload ]%string.

End LocationStore.

(* ===================================================================== *)
(** * What the radar view shows *)
(* ===================================================================== *)

Module RadarDisplay.
Import Radar.

(** [const currentFrameData = allFrames[currentFrame]]: [undefined] off the
    list and at [NaN]. The radar overlay and the time overlay are rendered
    under [currentFrameData && (...)]. *)
Definition currentFrameData (s : State) : option Frame :=
  match currentFrame s with
  | Int i => if i <? 0 then None else allFrames s !! Z.to_nat i
  | NaN => None
  end.

(** [currentFrame >= pastFrameCount], under which the time overlay adds
    "Vorhersage". *)
Definition isForecast (s : State) : bool :=
  match currentFrame s with
  | Int i => pastFrameCount s <=? i
  | NaN => false
  end.

(** [getMinutesOffset(currentFrame)], the index being any number. *)
Definition currentOffset (s : State) : jsnum :=
  match radarData s with
  | None => Int 0
  | Some _ =>
      match currentFrame s with
      | Int i => Int (getMinutesOffset s i)
      | NaN => NaN
      end
  end.

(** [getRainText] of the current view; a number in a template is written in
    decimal. Every comparison with [NaN] is false. *)
Definition getRainText (s : State) : option string :=
  match radarData s with
  | None => None
  | Some _ =>
      match currentOffset s with
      | Int minutesOffset =>
          if 0 <? minutesOffset then
            Some ("Vorhersage: " +:+ pretty minutesOffset +:+ " Minuten in der Zukunft")
          else if minutesOffset <? 0 then
            Some ("Vergangenheit: vor " +:+ pretty (Z.abs minutesOffset) +:+ " Minuten")
          else Some "Aktuelle Radardaten"%string
      | NaN => Some "Aktuelle Radardaten"%string
      end
  end.

(** The minutes of the quick-select buttons: [[-30, 0, 30, 60].map(...)]. *)
Definition quickSelectMinutes : list Z := [-30; 0; 30; 60].

(** Whether the button for [minutes] is drawn as the active one:
    [(minutes === 0 && Math.abs(getMinutesOffset(currentFrame)) <= 5) ||
     getMinutesOffset(currentFrame) === minutes]. *)
Definition highlighted (minutes : Z) (s : State) : bool :=
  match currentOffset s with
  | Int offset => ((minutes =? 0) && (Z.abs offset <=? 5)) || (offset =? minutes)
  | NaN => false
  end.

(** The older view writes its four buttons out one by one, each with a test
    of its own: [=== -30], [Math.abs(...) <= 5], [=== 30], [=== 60]. *)
Inductive LegacyButton : Type := Minus30 | Now | Plus30 | Plus60.

Definition legacyMinutes (b : LegacyButton) : Z :=
  match b with Minus30 => -30 | Now => 0 | Plus30 => 30 | Plus60 => 60 end.

Definition legacyHighlighted (b : LegacyButton) (s : State) : bool :=
  match currentOffset s with
  | Int offset =>
      match b with
      | Minus30 => offset =? -30
      | Now => Z.abs offset <=? 5
      | Plus30 => offset =? 30
      | Plus60 => offset =? 60
      end
  | NaN => false
  end.

(** A load that failed: [fetch] or [response.json()] threw. *)
Definition failedLoad (e : Event) : bool :=
  match e with Loaded None => true | _ => false end.

Definition LOAD_ERROR : string := "Radardaten konnten nicht geladen werden".

(** Four frames, the view playing. *)
Definition fourFrames : RainViewerData :=
  {| radar := {| past := Some [frameAt 1700000000; frameAt 1700000600];
                 nowcast := Some [frameAt 1700001200; frameAt 1700001800] |} |}.
Definition fourPlaying : State := togglePlay (init (Some fourFrames) initial).

End RadarDisplay.

(* ===================================================================== *)
(** * The location as the radar view uses it *)
(* ===================================================================== *)

Module LocationDisplay.
Import LocationStore.

(** [const DEFAULT_CENTER = { lat: 51.1657, lon: 10.4515 }], as a pair. *)
Definition DEFAULT_CENTER : number * number :=
  (Fin (511657 # 10000), Fin (104515 # 10000)).

(** [const currentCenter = { lat: location.lat ?? DEFAULT_CENTER.lat,
                             lon: location.lon ?? DEFAULT_CENTER.lon }] *)
Definition currentCenter (l : LocationState) : number * number :=
  (default (fst DEFAULT_CENTER) (lat l), default (snd DEFAULT_CENTER) (lon l)).

(** The header: [{location.cityLabel || "Standort wählen"}]. *)
Definition headerLabel (l : LocationState) : string :=
  if String.eqb (cityLabel l) EmptyString then "Standort wählen"%string
  else cityLabel l.

(** [handleCenterOnLocation]: [clearError(); await updateFromGPS()]. *)
Definition handleCenterOnLocation (geo : Geolocation) (rev : ReverseGeocoding)
    (now : Z) (s : Store) : Store * Settled :=
  s |> clearError |> updateFromGPS geo rev now.

(** What the legacy key holds, read as a document. *)
Definition storedLegacy (st : Storage) : option json :=
  match getItem LEGACY_STORAGE_KEY st with
  | Some t => JSON_parse t
  | None => None
  end.

(** The provider between actions, on storage that takes writes: what is
    stored under the primary key is the location in memory, or nothing
    readable is stored and the location is the default. *)
Definition synced (w : App) : Prop :=
  writable (disk w) = true /\
  (storedRecord (disk w) = Some (json_of_LocationState (location (store w))) \/
   (location (store w) = DEFAULT_LOCATION /\ storedRecord (disk w) = None)).

End LocationDisplay.

(* ===================================================================== *)
(** * The location in the older radar view *)
(* ===================================================================== *)

Module LegacyView.

(** [useState<{ lat: number; lon: number; name: string } | null>(null)] *)
Record Location : Type := {
  lat : LocationStore.number;
  lon : LocationStore.number;
  name : string
}.

(** The location cells of the older [RadarView] (src/unnamed/part_001); its
    playback cells are those of [Radar.State]. *)
Record State : Type := {
  location : option Location;
  gpsLoading : bool;
  error : option string
}.

Definition setLocation (l : Location) (s : State) : State :=
  {| location := Some l; gpsLoading := gpsLoading s; error := error s |}.

Definition setGpsLoading (b : bool) (s : State) : State :=
  {| location := location s; gpsLoading := b; error := error s |}.

Definition setError (e : option string) (s : State) : State :=
  {| location := location s; gpsLoading := gpsLoading s; error := e |}.

(** [handleGetGPS] *)
Definition handleGetGPS (geo : LocationStore.Geolocation)
    (rev : LocationStore.ReverseGeocoding) (s : State) : State :=
  match geo with
  | LocationStore.Unsupported =>
      s |> setError (Some "Geolocation wird nicht unterstützt. Bitte geben Sie einen Ort in den Einstellungen ein."%string)
  | LocationStore.Position latitude longitude =>
      let s := s |> setGpsLoading true |> setError None in
      let s :=
        match rev with
        | LocationStore.Name n =>
            s |> setLocation {| lat := latitude; lon := longitude;
                                name := LocationStore.orFallback n |}
        | LocationStore.Throws =>
            s |> setLocation {| lat := latitude; lon := longitude;
                                name := "Aktueller Standort" |}
        end in
      s |> setGpsLoading false
  | LocationStore.PositionError _ =>
      let s := s |> setGpsLoading true |> setError None in
      s |> setError (Some "Standort konnte nicht ermittelt werden. Bitte Standortfreigabe im Browser aktivieren."%string)
        |> setGpsLoading false
  end.

(** The two fields of [Settings] the view reads; a string that is not set
    is, like the empty one, falsy. *)
Record Settings : Type := { defaultLocation : string; startOrt : string }.

(** [a || b] on strings. *)
Definition orElse (a b : string) : string :=
  if String.eqb a EmptyString then b else a.

(** [{ lat: 51.1657, lon: 10.4515, name: "Deutschland" }] *)
Definition GERMANY : Location :=
  {| lat := LocationStore.Fin (511657 # 10000);
     lon := LocationStore.Fin (104515 # 10000);
     name := "Deutschland" |}.

(** The location part of [init]. [loadLastLocation] and [geocodeLocation]
    come from modules that are not among the sources: [lastLocation] is what
    the first returns, [geocode] what the second resolves to for a query,
    [None] when it throws. *)
Definition initLocation (lastLocation : option Location) (settings : Settings)
    (geocode : string -> option Location) (s : State) : State :=
  match lastLocation with
  | Some l => s |> setLocation l
  | None =>
      let query := orElse (defaultLocation settings) (startOrt settings) in
      if String.eqb query EmptyString
      then s |> setLocation GERMANY
      else
        match geocode query with
        | Some loc => s |> setLocation {| lat := lat loc; lon := lon loc;
                                          name := name loc |}
        | None => s |> setLocation GERMANY
        end
  end.

(** The record a store location stands for in the older format. *)
Definition ofLocationState (l : LocationStore.LocationState) : option Location :=
  match LocationStore.lat l, LocationStore.lon l with
  | Some a, Some b =>
      Some {| lat := a; lon := b; name := LocationStore.cityLabel l |}
  | _, _ => None
  end.

End LegacyView.

(* ===================================================================== *)
(** * Tile coordinates in double arithmetic *)
(* ===================================================================== *)

Module TileDoubles.
Import Tile.

(** A JavaScript number is an IEEE binary64; [+], [/] and [*] round to the
    nearest one. These are the kernel's floats and their operations. *)


(** The signed mantissa of a finite double. *)
Definition signed (s : bool) (m : positive) : Z :=
  if s then Zneg m else Zpos m.

(** The rational number a finite double is; [None] for [NaN] and the
    infinities. *)
Definition exact (f : float) : option Q :=
  match Prim2SF f with
  | S754_zero _ => Some 0%Q
  | S754_finite s m e =>
      Some (match e with
            | Z0 => inject_Z (signed s m)
            | Zpos p => inject_Z (signed s m * 2 ^ Zpos p)
            | Zneg p => signed s m # (2 ^ p)
            end)
  | S754_infinity _ | S754_nan => None
  end.










(** ** Sample data *)




End TileDoubles.

(* ===================================================================== *)
(** * Facts about the radar timeline *)
(* ===================================================================== *)

Module RadarFacts.
Import Radar.

(** ** Arithmetic *)

Lemma clamp_spec lo hi x :
  lo <= hi -> Z.max lo (Z.min hi x) = clamp lo hi x.
Proof.
  intros Hle. unfold clamp.
  destruct (Z.ltb_spec x lo); [lia|].
  destruct (Z.ltb_spec hi x); lia.
Qed.

Lemma clamp_range lo hi x : lo <= hi -> lo <= clamp lo hi x <= hi.
Proof.
  intros Hle. unfold clamp.
  destruct (Z.ltb_spec x lo); [lia|].
  destruct (Z.ltb_spec hi x); lia.
Qed.

(** [Z.div] by ten is the floor of the quotient. *)
Lemma floor_tenth m : 10 * (m / 10) <= m < 10 * (m / 10) + 10.
Proof.
  pose proof (Z.mod_pos_bound m 10 ltac:(lia)).
  pose proof (Z.div_mod m 10 ltac:(lia)). lia.
Qed.

(** On a non-negative dividend and a positive divisor, [%] is the
    mathematical modulo. *)
Lemma js_rem_mod i n :
  0 <= i -> 0 < n -> js_rem (Int i) (Int n) = Int (i mod n).
Proof.
  intros Hi Hn. unfold js_rem.
  destruct (Z.eqb_spec n 0); [lia|].
  now rewrite Z.rem_mod_nonneg by lia.
Qed.

(** ** The frame list is a function of the manifest alone *)

Lemma totalFrames_data s s' :
  radarData s' = radarData s -> totalFrames s' = totalFrames s.
Proof. unfold totalFrames, allFrames. now intros ->. Qed.

Lemma totalFrames_framesOf s d :
  radarData s = Some d -> totalFrames s = Z.of_nat (length (framesOf d)).
Proof. unfold totalFrames, allFrames. now intros ->. Qed.

Lemma pastFrameCount_le_total s : 0 <= pastFrameCount s <= totalFrames s.
Proof.
  unfold pastFrameCount, totalFrames, allFrames.
  destruct (radarData s) as [d|]; [|lia].
  unfold framesOf, lengthOr0, orEmpty.
  rewrite length_app. destruct (past (radar d)); simpl; lia.
Qed.

(** ** One event keeps the index in bounds *)

Lemma inBounds_intro s i :
  currentFrame s = Int i -> 0 <= i < totalFrames s -> inBounds s.
Proof. intros Hc Hi. exists i. now split. Qed.

Lemma inBoundsb_true s : inBoundsb s = true <-> inBounds s.
Proof.
  unfold inBoundsb, inBounds. split.
  - destruct (currentFrame s) as [i|]; [|discriminate].
    intros H. apply andb_true_iff in H as [H1 H2].
    exists i. split; [reflexivity|]. lia.
  - intros (i & -> & Hi).
    apply andb_true_iff. split; lia.
Qed.

(** Unfolds the derived values down to the manifest. *)
Ltac to_manifest :=
  unfold totalFrames, allFrames, pastFrameCount in *; cbn in *.

Lemma loadRadarData_inBounds d s :
  1 <= totalFrames (loadRadarData (Some d) s) ->
  inBounds (loadRadarData (Some d) s).
Proof.
  intros HT.
  pose proof (pastFrameCount_le_total (loadRadarData (Some d) s)) as HP.
  eapply inBounds_intro; [reflexivity|].
  to_manifest. lia.
Qed.

Lemma tick_inBounds s : inBounds s -> inBounds (tick s).
Proof.
  intros (i & Hc & Hi). unfold tick.
  destruct (radarData s) as [d|] eqn:Hd; [|now exists i].
  destruct (isPlaying s); [|now exists i].
  rewrite (totalFrames_framesOf s d Hd) in Hi.
  exists ((i + 1) mod Z.of_nat (length (framesOf d))). split.
  - cbn. rewrite Hc. cbn [js_add]. apply js_rem_mod; lia.
  - to_manifest. rewrite Hd. apply Z.mod_pos_bound. lia.
Qed.

Lemma jumpToTime_inBounds m s :
  1 <= totalFrames s -> inBounds s -> inBounds (jumpToTime m s).
Proof.
  intros HT Hin. unfold jumpToTime.
  destruct (radarData s) as [d|] eqn:Hd; [|exact Hin].
  eapply inBounds_intro; [reflexivity|].
  to_manifest. rewrite Hd in *. lia.
Qed.

Lemma whenRendered_inBounds h s :
  inBounds s ->
  (1 <= totalFrames s -> inBounds (h s)) ->
  inBounds (whenRendered h s).
Proof.
  intros Hin Hh. unfold whenRendered, controlsRendered.
  destruct (shown s); cbn; [|exact Hin].
  destruct (Z.ltb_spec 0 (totalFrames s)); [|exact Hin].
  apply Hh. lia.
Qed.

(** Apart from a load, no event touches the manifest. *)
Lemma handle_radarData e s :
  afterLoad e = true -> radarData (handle e s) = radarData s.
Proof.
  destruct e; cbn; try discriminate; intros _;
    unfold tick, togglePlay, scrub, quickSelect, skipBack, skipForward,
           whenRendered, jumpToTime;
    repeat match goal with
           | |- context [match ?x with _ => _ end] => destruct x eqn:?
           end; cbn; congruence.
Qed.

Lemma handle_totalFrames e s :
  afterLoad e = true -> totalFrames (handle e s) = totalFrames s.
Proof. intros He. apply totalFrames_data. now apply handle_radarData. Qed.

Lemma handle_inBounds e s :
  (1 <= totalFrames s -> inBounds s) ->
  1 <= totalFrames (handle e s) ->
  inBounds (handle e s).
Proof.
  intros Hinv HT.
  destruct e as [[d|]| | | | | |];
    try (rewrite handle_totalFrames in HT by reflexivity;
         specialize (Hinv HT)).
  - (* a manifest arrives *)
    destruct (loadRadarData_inBounds d (setLoading true s) HT) as (i & Hc & Hi).
    exists i. split; [exact Hc | exact Hi].
  - (* the request fails *)
    destruct (Hinv HT) as (i & Hc & Hi). exists i. split; [exact Hc | exact Hi].
  - now apply tick_inBounds.
  - apply whenRendered_inBounds; [exact Hinv|]. intros _.
    destruct Hinv as (i & Hc & Hi). now exists i.
  - apply whenRendered_inBounds; [exact Hinv|]. intros _.
    eapply inBounds_intro; [reflexivity|].
    unfold Slider_value. to_manifest. lia.
  - cbn. unfold quickSelect. destruct (shown s); [|exact Hinv].
    now apply jumpToTime_inBounds.
  - apply whenRendered_inBounds; [exact Hinv|]. intros _.
    eapply inBounds_intro; [reflexivity|]. to_manifest. lia.
  - apply whenRendered_inBounds; [exact Hinv|]. intros _.
    eapply inBounds_intro; [reflexivity|]. to_manifest. lia.
Qed.

(** ** Playback is on only over frames *)

Lemma handle_playing e s :
  afterLoad e = true ->
  (isPlaying s = true -> 1 <= totalFrames s) ->
  isPlaying (handle e s) = true -> 1 <= totalFrames (handle e s).
Proof.
  intros He Hinv. rewrite handle_totalFrames by exact He.
  destruct e; try discriminate; cbn;
    unfold tick, togglePlay, scrub, quickSelect, skipBack, skipForward,
           whenRendered, controlsRendered, jumpToTime.
  - destruct (radarData s); [destruct (isPlaying s) eqn:Hp|]; cbn; auto.
    rewrite Hp. auto.
  - destruct (shown s); cbn; auto.
    destruct (Z.ltb_spec 0 (totalFrames s)); cbn; auto. intros _. lia.
  - destruct (shown s && (0 <? totalFrames s)); cbn; auto.
  - destruct (shown s); auto. destruct (radarData s); cbn; auto. discriminate.
  - destruct (shown s && (0 <? totalFrames s)); cbn; auto.
  - destruct (shown s && (0 <? totalFrames s)); cbn; auto.
Qed.

Lemma steady_init resp : steady (init resp initial).
Proof.
  split.
  - destruct resp; cbn; discriminate.
  - intros HT. apply (handle_inBounds (Loaded resp) initial); [|exact HT].
    intros H0. vm_compute in H0. now contradiction H0.
Qed.

Lemma steady_handle e s : afterLoad e = true -> steady s -> steady (handle e s).
Proof.
  intros He [Hp Hb]. split.
  - now apply handle_playing.
  - now apply handle_inBounds.
Qed.

Lemma steady_run es s :
  forallb afterLoad es = true -> steady s -> steady (run es s).
Proof.
  revert s. induction es as [|e es IH]; intros s Hes Hs; [exact Hs|].
  cbn in Hes. apply andb_true_iff in Hes as [He Hes].
  cbn. apply IH; [exact Hes|]. now apply steady_handle.
Qed.

(** ** Checks on sample data *)

Example load_resets_to_last_past : currentFrame sampleReady = Int 2.
Proof. reflexivity. Qed.

Example quick_select_clamps :
  map (fun m => currentFrame (quickSelect m sampleReady)) [-30; 0; 30; 60]
  = [Int 0; Int 2; Int 4; Int 4].
Proof. reflexivity. Qed.

Example negative_minutes_floor : currentFrame (jumpToTime (-5) sampleReady) = Int 1.
Proof. reflexivity. Qed.

Example three_ticks_wrap :
  isPlaying threePlaying = true /\
  currentFrame (run [Tick; Tick; Tick] threePlaying) = currentFrame threePlaying.
Proof. split; reflexivity. Qed.

Example empty_manifest_clamps_to_zero :
  currentFrame (jumpToTime 60 emptyReady) = Int 0 /\
  scrub 3 emptyReady = emptyReady.
Proof. split; reflexivity. Qed.

(** After "now" is chosen over a manifest with a past frame, the offset of
    the index is zero minutes. *)
Lemma jump_to_now_offset s d :
  radarData s = Some d -> 1 <= pastFrameCount s ->
  exists i, currentFrame (jumpToTime 0 s) = Int i /\ getMinutesOffset s i = 0.
Proof.
  intros Hd HP. pose proof (pastFrameCount_le_total s) as HT.
  unfold jumpToTime, getMinutesOffset. unfold pastFrameCount in *.
  rewrite Hd in *. eexists. split; [reflexivity|].
  change (0 / 10) with 0. lia.
Qed.

(** ** The claims *)

(** C2. With a manifest loaded that has at least one frame, [jumpToTime m]
    sets the index to [pastCount - 1 + floor(m / 10)] clamped into
    [0 .. totalFrames - 1], sets [isPlaying] to false, and leaves the
    manifest, [loading] and [error] as they were. *)
Theorem jumpToTime_clamped_offset s d m :
  radarData s = Some d ->
  1 <= totalFrames s ->
  jumpToTime m s =
    {| radarData := radarData s;
       currentFrame :=
         Int (clamp 0 (totalFrames s - 1) (pastFrameCount s - 1 + m / 10));
       isPlaying := false;
       loading := loading s;
       error := error s |}
  /\ 10 * (m / 10) <= m < 10 * (m / 10) + 10.
Proof.
  intros Hd HT. split; [|apply floor_tenth].
  unfold jumpToTime, pastFrameCount. rewrite Hd. cbn.
  rewrite clamp_spec by lia.
  unfold setIsPlaying, setCurrentFrame. cbn. now rewrite Hd.
Qed.

Lemma jumpToTime_clamped_offset_witness :
  radarData sampleReady = Some sampleManifest /\
  1 <= totalFrames sampleReady /\
  jumpToTime 30 sampleReady =
    {| radarData := Some sampleManifest; currentFrame := Int 4;
       isPlaying := false; loading := false; error := None |}.
Proof.
  split; [reflexivity|]. split; [vm_compute; discriminate|].
  exact (proj1 (jumpToTime_clamped_offset sampleReady sampleManifest 30
                  eq_refl ltac:(vm_compute; discriminate))).
Defined.

(** From the load on the index is a number. *)
Lemma handle_number e s :
  afterLoad e = true -> steady s ->
  (exists i, currentFrame s = Int i) ->
  exists i, currentFrame (handle e s) = Int i.
Proof.
  intros He [Hp _] (i & Hc).
  destruct e; try discriminate; cbn;
    unfold tick, togglePlay, scrub, quickSelect, skipBack, skipForward,
           whenRendered, jumpToTime.
  - destruct (radarData s) as [d|] eqn:Hd; [|now exists i].
    destruct (isPlaying s) eqn:Hpl; [|now exists i].
    specialize (Hp eq_refl). rewrite (totalFrames_framesOf s d Hd) in Hp.
    cbn. rewrite Hc. cbn [js_add js_rem].
    destruct (Z.eqb_spec (Z.of_nat (length (framesOf d))) 0); [lia|].
    eexists. reflexivity.
  - destruct (controlsRendered s); cbn; now exists i.
  - destruct (controlsRendered s); cbn; [eexists; reflexivity | now exists i].
  - destruct (shown s); [|now exists i].
    destruct (radarData s); cbn; [eexists; reflexivity | now exists i].
  - destruct (controlsRendered s); cbn; [eexists; reflexivity | now exists i].
  - destruct (controlsRendered s); cbn; [eexists; reflexivity | now exists i].
Qed.

Lemma number_run es : forall s,
  forallb afterLoad es = true -> steady s ->
  (exists i, currentFrame s = Int i) ->
  exists i, currentFrame (run es s) = Int i.
Proof.
  induction es as [|e es IH]; intros s Hes Hs Hn; [exact Hn|].
  cbn in Hes. apply andb_true_iff in Hes as [He Hes].
  cbn. apply IH; [exact Hes | now apply steady_handle | now apply handle_number].
Qed.

Lemma number_init resp : exists i, currentFrame (init resp initial) = Int i.
Proof. destruct resp; cbn; eexists; reflexivity. Qed.

(** C5. In every state the view reaches from its load through ticks and
    controls, a tick leaves an integer for an index, never [NaN]; over an
    empty frame list, and whenever playback is off, it does nothing; and
    when playback is on there is at least one frame and the tick moves the
    index to [(currentFrame + 1) mod totalFrames], within bounds, changing
    nothing else. The division by zero is kept out by the play button, which
    exists only over frames. *)
Theorem tick_after_load resp es :
  forallb afterLoad es = true ->
  let s := run es (init resp initial) in
  (exists i, currentFrame (tick s) = Int i) /\
  (totalFrames s = 0 -> tick s = s) /\
  (isPlaying s = false -> tick s = s) /\
  (isPlaying s = true ->
     exists i, currentFrame s = Int i /\
       1 <= totalFrames s /\
       0 <= (i + 1) mod totalFrames s < totalFrames s /\
       tick s = s |> setCurrentFrame (fun _ => Int ((i + 1) mod totalFrames s))).
Proof.
  intros Hes s.
  assert (Hs : steady s) by (apply steady_run; [exact Hes | apply steady_init]).
  assert (Hn : exists i, currentFrame s = Int i)
    by (apply number_run; [exact Hes | apply steady_init | apply number_init]).
  assert (Hoff : isPlaying s = false -> tick s = s).
  { intros Hp. unfold tick. rewrite Hp. now destruct (radarData s). }
  assert (Hon : isPlaying s = true ->
            exists i, currentFrame s = Int i /\
              1 <= totalFrames s /\
              0 <= (i + 1) mod totalFrames s < totalFrames s /\
              tick s = s |> setCurrentFrame
                              (fun _ => Int ((i + 1) mod totalFrames s))).
  { intros Hp. destruct Hs as [HT Hb]. specialize (HT Hp).
    destruct (Hb HT) as (i & Hc & Hi).
    exists i. split; [exact Hc|]. split; [exact HT|].
    split; [apply Z.mod_pos_bound; lia|].
    unfold tick. rewrite Hp.
    destruct (radarData s) as [d|] eqn:Hd.
    + rewrite (totalFrames_framesOf s d Hd) in *.
      unfold setCurrentFrame. rewrite Hc. cbn [js_add].
      rewrite js_rem_mod by lia. reflexivity.
    + unfold totalFrames, allFrames in HT. rewrite Hd in HT. cbn in HT. lia. }
  assert (Hempty : totalFrames s = 0 -> tick s = s).
  { intros H0. apply Hoff. apply not_true_is_false. intros Hp.
    destruct Hs as [HT _]. specialize (HT Hp). lia. }
  split; [|split; [exact Hempty | split; [exact Hoff | exact Hon]]].
  destruct (Bool.bool_dec (isPlaying s) true) as [Hp | Hp].
  - destruct (Hon Hp) as (i & _ & _ & _ & ->). eexists. reflexivity.
  - rewrite (Hoff (not_true_is_false _ Hp)). exact Hn.
Qed.

Lemma tick_after_load_witness :
  forallb afterLoad [TogglePlay; Tick; Tick; Tick] = true /\
  isPlaying (run [TogglePlay; Tick; Tick; Tick] sampleReady) = true /\
  exists i,
    currentFrame (run [TogglePlay; Tick; Tick; Tick] sampleReady) = Int i /\
    currentFrame (tick (run [TogglePlay; Tick; Tick; Tick] sampleReady))
      = Int ((i + 1) mod 5).
Proof.
  split; [reflexivity|]. split; [reflexivity|]. unfold sampleReady.
  destruct (proj2 (proj2 (proj2 (tick_after_load (Some sampleManifest)
                     [TogglePlay; Tick; Tick; Tick] eq_refl))) eq_refl)
    as (i & Hc & _ & _ & Ht).
  exists i. split; [exact Hc|]. rewrite Ht. reflexivity.
Defined.

(** The callback has no test of its own for an empty frame list. On a
    playing view over an empty manifest, which by the theorem above no run
    from the load reaches, it would leave [NaN] for an index. *)
Lemma tick_on_empty_manifest :
  isPlaying playingOnNothing = true /\
  totalFrames playingOnNothing = 0 /\
  tick playingOnNothing <> playingOnNothing /\
  currentFrame (tick playingOnNothing) = NaN.
Proof. repeat split; try reflexivity. discriminate. Qed.

(** C6. Whenever at least one frame exists the index satisfies
    [0 <= currentFrame < totalFrames], and every event keeps it so: the load
    (which resets the index to [max(0, past.length - 1)]), a tick, a scrub, a
    quick-select jump, and the skip and play buttons, in any order and
    number. *)
Theorem index_stays_in_bounds es s :
  (1 <= totalFrames s -> inBounds s) ->
  1 <= totalFrames (run es s) ->
  inBounds (run es s).
Proof.
  revert s. induction es as [|e es IH]; intros s Hinv HT.
  - now apply Hinv.
  - cbn in HT |- *. apply IH; [|exact HT].
    now apply handle_inBounds.
Qed.

Lemma index_stays_in_bounds_witness :
  (1 <= totalFrames initial -> inBounds initial) /\
  1 <= totalFrames
         (run [Loaded (Some sampleManifest); TogglePlay; Tick; Scrub 9;
               QuickSelect (-30); Tick] initial) /\
  inBounds
    (run [Loaded (Some sampleManifest); TogglePlay; Tick; Scrub 9;
          QuickSelect (-30); Tick] initial).
Proof.
  assert (H1 : 1 <= totalFrames initial -> inBounds initial).
  { intros H0. vm_compute in H0. now contradiction H0. }
  assert (H2 : 1 <= totalFrames
                      (run [Loaded (Some sampleManifest); TogglePlay; Tick;
                            Scrub 9; QuickSelect (-30); Tick] initial)).
  { vm_compute. discriminate. }
  split; [exact H1|]. split; [exact H2|].
  exact (index_stays_in_bounds _ initial H1 H2).
Defined.

(** The value a load resets the index to. *)
Lemma loadRadarData_resets d s :
  currentFrame (loadRadarData (Some d) s)
    = Int (Z.max 0 (lengthOr0 (past (radar d)) - 1)).
Proof. reflexivity. Qed.

(** C9. Over an empty frame list the play button does nothing: the state,
    and so the [isPlaying] flag, is as before. *)
Theorem togglePlay_without_frames s :
  allFrames s = [] ->
  togglePlay s = s /\ isPlaying (togglePlay s) = isPlaying s.
Proof.
  intros He.
  assert (Hs : togglePlay s = s).
  { unfold togglePlay, whenRendered, controlsRendered, totalFrames.
    rewrite He. cbn. now rewrite andb_false_r. }
  split; [exact Hs | now rewrite Hs].
Qed.

Lemma togglePlay_without_frames_witness :
  allFrames emptyReady = [] /\
  togglePlay emptyReady = emptyReady /\
  isPlaying (togglePlay emptyReady) = isPlaying emptyReady.
Proof.
  split; [reflexivity|].
  exact (togglePlay_without_frames emptyReady eq_refl).
Defined.

End RadarFacts.

(* ===================================================================== *)
(** * Facts about the tile expressions *)
(* ===================================================================== *)

Module TileFacts.
Import Tile.

(** Over the reals, two to the seventh is 128. *)
Lemma RealMath_pow_2_7 : @Math_pow R RealMath (lit 2) (lit 7) = lit 128.
Proof.
  cbn. replace (IZR 7) with (INR 7) by (rewrite INR_IZR_INZ; reflexivity).
  rewrite Rpower_pow by lra. lra.
Qed.

(** C10. Given that the engine's [Math.pow(2, 7)] is [128], the inline
    expressions of the older view and [getTileCoords(lat, lon, 7)] give the
    same pair, whatever the arithmetic and the other built-ins do. *)
Theorem legacy_tile_agrees {num : Type} `{JSMath num} :
  Math_pow (lit 2) (lit 7) = lit 128 ->
  forall lat lon : num, legacyTile lat lon = getTileCoords lat lon (lit 7).
Proof.
  intros Hpow lat lon.
  unfold legacyTile, legacyTileX, legacyTileY, getTileCoords.
  now rewrite Hpow.
Qed.

Lemma legacy_tile_agrees_witness :
  @Math_pow R RealMath (lit 2) (lit 7) = lit 128 /\
  @legacyTile R RealMath (IZR 52) (IZR 13)
    = @getTileCoords R RealMath (IZR 52) (IZR 13) (lit 7).
Proof.
  split; [exact RealMath_pow_2_7|].
  exact (@legacy_tile_agrees R RealMath RealMath_pow_2_7 (IZR 52) (IZR 13)).
Defined.

End TileFacts.

(* ===================================================================== *)
(** * Facts about the location store *)
(* ===================================================================== *)

Module LocationFacts.
Import LocationStore.

(** ** Error messages *)

Lemma errorMessage_kind code : errorMessage code = messageOfKind (kindOfCode code).
Proof.
  destruct code as [|p|p]; [reflexivity| |reflexivity].
  destruct p as [[p|p|]|[p|p|]|]; reflexivity.
Qed.

(** Each kind has a message of its own. *)
Lemma messageOfKind_inj k k' : messageOfKind k = messageOfKind k' -> k = k'.
Proof. destruct k, k'; cbn; intros H; first [reflexivity | discriminate H]. Qed.

(** ** Serialization *)


Lemma nullable_roundtrip o :
  finiteOrNull o = true -> nullable_of_json (json_of_nullable o) = Some o.
Proof. destruct o as [[]|]; cbn; congruence. Qed.

Lemma source_roundtrip src : source_of_json (JStr (string_of_source src)) = Some src.
Proof. now destruct src. Qed.

(** A state whose numbers are finite is read back as it was written. *)
Lemma LocationState_roundtrip l :
  finiteState l = true ->
  LocationState_of_json (json_of_LocationState l) = Some l.
Proof.
  destruct l as [la lo label src t]. unfold finiteState. cbn [lat lon lastUpdated].
  intros H. apply andb_true_iff in H as [H Ht].
  apply andb_true_iff in H as [Hla Hlo].
  destruct t as [q| | |]; try discriminate.
  unfold json_of_LocationState, LocationState_of_json. cbn.
  rewrite (nullable_roundtrip la Hla), (nullable_roundtrip lo Hlo).
  now destruct src.
Qed.

(** ** Storage *)

Lemma keys_differ : LEGACY_STORAGE_KEY <> LOCATION_STORAGE_KEY.
Proof. discriminate. Qed.

(** With both coordinates set and storage taking writes, the persist effect
    leaves the state's document under the primary key. *)
Lemma persist_written s st a b :
  lat (location s) = Some a -> lon (location s) = Some b ->
  writable st = true ->
  storedRecord (persist s st) = Some (json_of_LocationState (location s)).
Proof.
  intros Ha Hb Hw. unfold persist, setItem. rewrite Ha, Hb, Hw. cbn.
  unfold storedRecord, getItem. cbn.
  rewrite lookup_insert_ne by exact keys_differ.
  now rewrite lookup_insert_eq.
Qed.

(** Otherwise it leaves the primary key as it was. *)
Lemma persist_skipped s st :
  pairedb (location s) = true ->
  storedRecord (persist s st) = storedRecord st \/
  storedRecord (persist s st) = Some (json_of_LocationState (location s)).
Proof.
  intros Hp. unfold pairedb in Hp.
  destruct (lat (location s)) as [a|] eqn:Ha, (lon (location s)) as [b|] eqn:Hb;
    try discriminate.
  - destruct (writable st) eqn:Hw.
    + right. now apply (persist_written s st a b).
    + left. unfold persist, setItem. now rewrite Ha, Hb, Hw.
  - left. unfold persist. now rewrite Ha.
Qed.

Lemma persist_storedSound s st :
  pairedb (location s) = true -> finiteState (location s) = true ->
  storedSound st -> storedSound (persist s st).
Proof.
  intros Hp Hf Hst doc Hdoc.
  destruct (persist_skipped s st Hp) as [Heq | Heq]; rewrite Heq in Hdoc.
  - now apply Hst.
  - exists (location s). split; [congruence|]. now split.
Qed.

(** From sound storage the rehydrate effect ends in a state inside the
    model, paired and finite. *)
Lemma rehydrate_storedSound st :
  storedSound st ->
  exists s, rehydrate st initialStore = Some s /\
            pairedb (location s) = true /\ finiteState (location s) = true.
Proof.
  intros Hst. unfold storedSound, storedRecord in Hst. unfold rehydrate.
  destruct (getItem LOCATION_STORAGE_KEY st) as [t|];
    [|now exists initialStore].
  destruct (truthy t); [|now exists initialStore].
  destruct (JSON_parse t) as [doc|]; [|now exists initialStore].
  destruct (Hst doc eq_refl) as (l & -> & Hp & Hf).
  rewrite (LocationState_roundtrip l Hf).
  now exists (setLocation l initialStore).
Qed.

(** ** Actions keep the provider sound *)

Lemma saved_sound s st :
  pairedb (location s) = true -> finiteState (location s) = true ->
  storedSound st -> sound (saved s st).
Proof.
  intros Hp Hf Hst. repeat split; cbn; auto.
  now apply persist_storedSound.
Qed.

Lemma mount_sound st :
  storedSound st -> exists w, mount st = Some w /\ sound w.
Proof.
  intros Hst. unfold mount.
  destruct (rehydrate_storedSound st Hst) as (s & -> & Hp & Hf).
  exists (saved s st). split; [reflexivity|]. now apply saved_sound.
Qed.

Lemma act_sound a w :
  finiteAction a = true -> sound w -> exists w', act a w = Some w' /\ sound w'.
Proof.
  intros Ha (Hp & Hf & Hst).
  destruct a as [la lo label now | geo rev now | | ]; cbn in Ha |- *.
  - apply andb_true_iff in Ha as [Hla Hlo].
    eexists. split; [reflexivity|].
    apply saved_sound; [reflexivity| |exact Hst].
    unfold finiteState. cbn. now rewrite Hla, Hlo.
  - destruct geo as [|la lo|code].
    + eexists. split; [reflexivity|]. now repeat split.
    + apply andb_true_iff in Ha as [Hla Hlo].
      eexists. split; [reflexivity|].
      apply saved_sound; [now destruct rev| |exact Hst].
      unfold finiteState. destruct rev; cbn; now rewrite Hla, Hlo.
    + eexists. split; [reflexivity|]. now repeat split.
  - eexists. split; [reflexivity|]. now repeat split.
  - now apply mount_sound.
Qed.


(** ** Each operation on its own *)

Lemma DEFAULT_LOCATION_paired : paired DEFAULT_LOCATION.
Proof. now left. Qed.

Lemma updateManual_paired la lo label now s :
  paired (location (updateManual la lo label now s)).
Proof. right. now exists la, lo. Qed.

(** The GPS flow either replaces the location by one with both coordinates
    or leaves it alone. *)
Lemma updateFromGPS_paired geo rev now s :
  paired (location s) ->
  paired (location (fst (updateFromGPS geo rev now s))).
Proof.
  intros Hs. destruct geo as [|la lo|code]; cbn; [exact Hs| |exact Hs].
  right. exists la, lo. now destruct rev.
Qed.

(** The persist effect writes nothing unless both coordinates are set. *)
Lemma persist_needs_both s st :
  lat (location s) = None \/ lon (location s) = None -> persist s st = st.
Proof.
  unfold persist. intros [-> | ->]; [reflexivity|].
  now destruct (lat (location s)).
Qed.

(** The rehydrate effect takes the stored record as it is. *)
Lemma rehydrate_adopts st s doc l :
  storedRecord st = Some doc ->
  LocationState_of_json doc = Some l ->
  rehydrate st s = Some (setLocation l s).
Proof.
  unfold storedRecord, rehydrate. intros Hdoc Hl.
  destruct (getItem LOCATION_STORAGE_KEY st) as [t|]; [|discriminate].
  destruct (truthy t); [|discriminate].
  now rewrite Hdoc, Hl.
Qed.

(** Text that does not parse leaves the defaults in place. *)
Lemma rehydrate_malformed st s raw :
  getItem LOCATION_STORAGE_KEY st = Some (Malformed raw) -> rehydrate st s = Some s.
Proof.
  unfold rehydrate. intros ->. cbn. now destruct (negb _).
Qed.

(** ** The claims *)

(** C3. Whatever code the platform reports, [updateFromGPS] leaves the
    location as it was, sets [error] to the message of the kind the code
    stands for, ends with [isLoading] false, and resolves. *)
Theorem updateFromGPS_failure code rev now s :
  location (fst (updateFromGPS (PositionError code) rev now s)) = location s /\
  error (fst (updateFromGPS (PositionError code) rev now s))
    = Some (messageOfKind (kindOfCode code)) /\
  isLoading (fst (updateFromGPS (PositionError code) rev now s)) = false /\
  snd (updateFromGPS (PositionError code) rev now s) = Resolved.
Proof.
  cbn. rewrite errorMessage_kind. now repeat split.
Qed.

(** C8. When the position is obtained and the reverse-geocoding request
    throws, [updateFromGPS] replaces the whole location with the position
    under the fallback label, source [gps], stamped [now]; [error] is
    cleared, [isLoading] is false, and the promise resolves. *)
Theorem updateFromGPS_geocoding_failure latitude longitude now s :
  updateFromGPS (Position latitude longitude) Throws now s =
    ({| location := {| lat := Some latitude; lon := Some longitude;
                       cityLabel := "Aktueller Standort"; source := gps;
                       lastUpdated := Fin (inject_Z now) |};
        isLoading := false;
        error := None |},
     Resolved).
Proof. reflexivity. Qed.

(** C4, for finite coordinates. After [updateManual(lat, lon, X)] with
    finite [lat] and [lon], on storage that takes the write, a fresh provider
    that rehydrates from the primary key holds the same [lat] and [lon],
    [cityLabel = X] and [source = manual]. *)
Theorem updateManual_survives_reload a b label now s st :
  writable st = true ->
  exists s',
    rehydrate (persist (updateManual (Fin a) (Fin b) label now s) st) initialStore
      = Some s' /\
    lat (location s') = Some (Fin a) /\
    lon (location s') = Some (Fin b) /\
    cityLabel (location s') = label /\
    source (location s') = manual.
Proof.
  intros Hw.
  pose (s1 := updateManual (Fin a) (Fin b) label now s).
  assert (Hrec : storedRecord (persist s1 st)
                 = Some (json_of_LocationState (location s1)))
    by now apply (persist_written s1 st (Fin a) (Fin b)).
  exists (setLocation (location s1) initialStore). split; [|now repeat split].
  fold s1. unfold storedRecord in Hrec. unfold rehydrate.
  destruct (getItem LOCATION_STORAGE_KEY (persist s1 st)) as [t|]; [|discriminate].
  destruct (truthy t); [|discriminate].
  rewrite Hrec. now rewrite LocationState_roundtrip.
Qed.

Lemma updateManual_survives_reload_witness :
  writable emptyDisk = true /\
  exists s',
    rehydrate
      (persist (updateManual (Fin (1313 # 25)) (Fin (2681 # 200)) "X"
                  1700000000000 initialStore) emptyDisk)
      initialStore = Some s' /\
    lat (location s') = Some (Fin (1313 # 25)) /\
    lon (location s') = Some (Fin (2681 # 200)) /\
    cityLabel (location s') = "X"%string /\
    source (location s') = manual.
Proof.
  split; [reflexivity|].
  exact (updateManual_survives_reload (1313 # 25) (2681 # 200) "X"
           1700000000000 initialStore emptyDisk eq_refl).
Defined.

(** C4 as worded fails on a latitude that is a number and not finite:
    [NaN] is not null, so the state is saved, with [null] for it, and comes
    back with no latitude. *)
Lemma updateManual_NaN_lost :
  lat (location (updateManual NaN (Fin 10) "X" 1700000000000 initialStore))
    = Some NaN /\
  exists s',
    rehydrate
      (persist (updateManual NaN (Fin 10) "X" 1700000000000 initialStore)
               emptyDisk)
      initialStore = Some s' /\
    lat (location s') = None /\
    lon (location s') = Some (Fin 10).
Proof.
  split; [reflexivity|].
  eexists. split; [vm_compute; reflexivity|]. split; reflexivity.
Qed.


Lemma emptyDisk_storedSound : storedSound emptyDisk.
Proof. intros doc Hdoc. discriminate Hdoc. Qed.



(** Such a record can also be the provider's own: a manual update with one
    coordinate that is not finite is saved with [null] in its place. *)
Lemma session_NaN_unpaired :
  exists w,
    session emptyDisk [Manual NaN (Fin 10) "X" 1700000000000; Reload] = Some w /\
    lat (location (store w)) = None /\
    lon (location (store w)) = Some (Fin 10).
Proof.
  eexists. split; [vm_compute; reflexivity|]. split; reflexivity.
Qed.

(** After a refused GPS request [clearError] clears the error and leaves the
    location. *)
Lemma clearError_after_denial rev now s :
  let s' := clearError (fst (updateFromGPS (PositionError PERMISSION_DENIED) rev now s)) in
  error s' = None /\ location s' = location s.
Proof. now split. Qed.

End LocationFacts.

(* ===================================================================== *)
(** * Facts about what the radar view shows *)
(* ===================================================================== *)

Module RadarDisplayFacts.
Import Radar RadarDisplay RadarFacts.

(** ** Setters *)

Lemma setCurrentFrame_same s : setCurrentFrame (fun _ => currentFrame s) s = s.
Proof. now destruct s. Qed.

(** A handler that only writes the index and the playing flag is invisible
    to [jumpToTime], which writes both. *)
Lemma jumpToTime_same_rest m s s' d :
  radarData s = Some d ->
  radarData s' = radarData s -> loading s' = loading s -> error s' = error s ->
  jumpToTime m s' = jumpToTime m s.
Proof.
  destruct s as [r c p l e], s' as [r' c' p' l' e']. cbn.
  intros -> -> -> ->. reflexivity.
Qed.

Lemma handle_loading e s : afterLoad e = true -> loading (handle e s) = loading s.
Proof.
  destruct e; cbn; try discriminate; intros _;
    unfold tick, togglePlay, scrub, quickSelect, skipBack, skipForward,
           whenRendered, jumpToTime;
    repeat match goal with
           | |- context [match ?x with _ => _ end] => destruct x eqn:?
           end; cbn; congruence.
Qed.

Lemma handle_error e s : afterLoad e = true -> error (handle e s) = error s.
Proof.
  destruct e; cbn; try discriminate; intros _;
    unfold tick, togglePlay, scrub, quickSelect, skipBack, skipForward,
           whenRendered, jumpToTime;
    repeat match goal with
           | |- context [match ?x with _ => _ end] => destruct x eqn:?
           end; cbn; congruence.
Qed.

(** ** Ticks *)

Lemma tick_playing s d i :
  radarData s = Some d -> isPlaying s = true -> currentFrame s = Int i ->
  0 <= i -> 1 <= totalFrames s ->
  tick s = s |> setCurrentFrame (fun _ => Int ((i + 1) mod totalFrames s)).
Proof.
  intros Hd Hp Hc Hi HT. unfold tick. rewrite Hd, Hp.
  rewrite (totalFrames_framesOf s d Hd) in *.
  unfold setCurrentFrame. rewrite Hc. cbn [js_add].
  now rewrite js_rem_mod by lia.
Qed.

Lemma ticks_advance n : forall s d i,
  radarData s = Some d -> isPlaying s = true -> currentFrame s = Int i ->
  0 <= i < totalFrames s ->
  run (repeat Tick n) s
    = s |> setCurrentFrame (fun _ => Int ((i + Z.of_nat n) mod totalFrames s)).
Proof.
  induction n as [|n IH]; intros s d i Hd Hp Hc Hi.
  - cbn. rewrite Z.add_0_r, Z.mod_small by lia.
    rewrite <- Hc. symmetry. apply setCurrentFrame_same.
  - cbn [repeat run fold_left handle].
    change (fold_left (fun st e => handle e st) (repeat Tick n) (tick s))
      with (run (repeat Tick n) (tick s)).
    rewrite (tick_playing s d i Hd Hp Hc) by lia.
    set (s1 := s |> setCurrentFrame (fun _ => Int ((i + 1) mod totalFrames s))).
    assert (HT1 : totalFrames s1 = totalFrames s) by reflexivity.
    rewrite (IH s1 d ((i + 1) mod totalFrames s)); [|exact Hd|exact Hp|reflexivity|].
    + rewrite HT1. unfold s1, setCurrentFrame. cbn. f_equal. f_equal.
      rewrite Zplus_mod_idemp_l. f_equal. lia.
    + rewrite HT1. apply Z.mod_pos_bound. lia.
Qed.

(** X3. While the view plays over its frames, [n] ticks move the index
    forward by [n] modulo the number of frames and change nothing else; as
    many ticks as there are frames bring the view back to where it was. *)
Theorem ticks_cycle s n :
  isPlaying s = true ->
  inBounds s ->
  (exists i, currentFrame s = Int i /\
     run (repeat Tick n) s
       = s |> setCurrentFrame (fun _ => Int ((i + Z.of_nat n) mod totalFrames s))) /\
  run (repeat Tick (Z.to_nat (totalFrames s))) s = s.
Proof.
  intros Hp (i & Hc & Hi).
  destruct (radarData s) as [d|] eqn:Hd.
  2:{ unfold totalFrames, allFrames in Hi. rewrite Hd in Hi. cbn in Hi. lia. }
  split.
  - exists i. split; [exact Hc|]. now apply (ticks_advance n s d i).
  - rewrite (ticks_advance _ s d i Hd Hp Hc Hi).
    rewrite Z2Nat.id by lia.
    replace (i + totalFrames s) with (i + 1 * totalFrames s) by lia.
    rewrite Z.mod_add by lia. rewrite Z.mod_small by lia.
    rewrite <- Hc. apply setCurrentFrame_same.
Qed.

Lemma ticks_cycle_witness :
  isPlaying fourPlaying = true /\
  inBounds fourPlaying /\
  run (repeat Tick 4) fourPlaying = fourPlaying.
Proof.
  assert (Hb : inBounds fourPlaying).
  { exists 1. split; [reflexivity | vm_compute; split; congruence]. }
  split; [reflexivity|]. split; [exact Hb|].
  exact (proj2 (ticks_cycle fourPlaying 0 eq_refl Hb)).
Defined.



(** ** The frame on screen *)

(** X1. An index within bounds always has a frame, and the "Vorhersage"
    mark goes with the frames of [nowcast]: below [past.length] the frame
    on screen is that entry of [past], from there on it is entry
    [currentFrame - past.length] of [nowcast]. *)
Theorem frame_on_screen s d i :
  radarData s = Some d ->
  currentFrame s = Int i ->
  0 <= i < totalFrames s ->
  exists f, currentFrameData s = Some f /\
    if isForecast s
    then orEmpty (nowcast (radar d)) !! Z.to_nat (i - pastFrameCount s) = Some f
    else orEmpty (past (radar d)) !! Z.to_nat i = Some f.
Proof.
  intros Hd Hc Hi.
  unfold currentFrameData, isForecast, pastFrameCount, totalFrames, allFrames in *.
  rewrite Hd in *. rewrite Hc. unfold framesOf in *.
  destruct (Z.ltb_spec i 0); [lia|].
  assert (HP : lengthOr0 (past (radar d))
               = Z.of_nat (length (orEmpty (past (radar d)))))
    by now destruct (past (radar d)).
  rewrite length_app in Hi.
  destruct (Z.leb_spec (lengthOr0 (past (radar d))) i) as [Hge | Hlt].
  - rewrite lookup_app_r by lia.
    replace (Z.to_nat (i - lengthOr0 (past (radar d))))
      with (Z.to_nat i - length (orEmpty (past (radar d))))%nat by lia.
    destruct (lookup_lt_is_Some_2 (orEmpty (nowcast (radar d)))
                (Z.to_nat i - length (orEmpty (past (radar d))))%nat) as [f Hf];
      [lia|].
    exists f. now rewrite Hf.
  - rewrite lookup_app_l by lia.
    destruct (lookup_lt_is_Some_2 (orEmpty (past (radar d))) (Z.to_nat i)) as [f Hf];
      [lia|].
    exists f. now rewrite Hf.
Qed.

Lemma frame_on_screen_witness :
  radarData sampleReady = Some sampleManifest /\
  currentFrame (skipForward sampleReady) = Int 4 /\
  0 <= 4 < totalFrames (skipForward sampleReady) /\
  exists f, currentFrameData (skipForward sampleReady) = Some f /\
            time f = 1700002400.
Proof.
  split; [reflexivity|]. split; [reflexivity|].
  assert (Hi : 0 <= 4 < totalFrames (skipForward sampleReady))
    by (vm_compute; split; congruence).
  split; [exact Hi|].
  destruct (frame_on_screen (skipForward sampleReady) sampleManifest 4
              eq_refl eq_refl Hi) as (f & Hf & _).
  exists f. split; [exact Hf|].
  vm_compute in Hf. now injection Hf as <-.
Defined.

Lemma currentFrameData_in_bounds s :
  inBounds s -> is_Some (currentFrameData s).
Proof.
  intros (i & Hc & Hi). unfold currentFrameData, totalFrames in *. rewrite Hc.
  destruct (Z.ltb_spec i 0); [lia|].
  apply lookup_lt_is_Some_2. lia.
Qed.

Lemma currentFrameData_needs_frames s :
  is_Some (currentFrameData s) -> 1 <= totalFrames s.
Proof.
  unfold currentFrameData, totalFrames. intros [f Hf].
  destruct (currentFrame s) as [i|]; [|discriminate].
  destruct (i <? 0); [discriminate|].
  apply lookup_lt_Some in Hf. lia.
Qed.

(** X2. From the load on, through ticks and controls, the view has a frame
    to show exactly when the manifest has frames: the overlay is never
    missing over a non-empty frame list. *)
Theorem overlay_after_load resp es :
  forallb afterLoad es = true ->
  is_Some (currentFrameData (run es (init resp initial)))
  <-> 1 <= totalFrames (run es (init resp initial)).
Proof.
  intros Hes. split; [apply currentFrameData_needs_frames|].
  intros HT.
  destruct (steady_run es (init resp initial) Hes (steady_init resp)) as [_ Hb].
  now apply currentFrameData_in_bounds, Hb.
Qed.

Lemma overlay_after_load_witness :
  forallb afterLoad [TogglePlay; Tick; Scrub 9; Tick] = true /\
  (is_Some (currentFrameData
              (run [TogglePlay; Tick; Scrub 9; Tick]
                   (init (Some sampleManifest) initial)))
   <-> 1 <= totalFrames (run [TogglePlay; Tick; Scrub 9; Tick]
                             (init (Some sampleManifest) initial))).
Proof.
  split; [reflexivity|].
  exact (overlay_after_load (Some sampleManifest)
           [TogglePlay; Tick; Scrub 9; Tick] eq_refl).
Defined.

(** ** Controls *)

(** X4. Pressing play/pause twice leaves the view as it was, whether or not
    the button is there. *)
Theorem togglePlay_twice s : togglePlay (togglePlay s) = s.
Proof.
  unfold togglePlay, whenRendered.
  destruct (controlsRendered s) eqn:Hr; [|now rewrite Hr].
  change (controlsRendered (s |> setIsPlaying (negb (isPlaying s))))
    with (controlsRendered s).
  rewrite Hr. destruct s as [r c p l e]. cbn. now rewrite negb_involutive.
Qed.

(** X5. A later quick-select time never lands on an earlier frame. *)
Theorem jumpToTime_monotone s d m m' :
  radarData s = Some d ->
  m <= m' ->
  exists i i', currentFrame (jumpToTime m s) = Int i /\
               currentFrame (jumpToTime m' s) = Int i' /\ i <= i'.
Proof.
  intros Hd Hm. unfold jumpToTime. rewrite Hd. cbn.
  eexists. eexists. split; [reflexivity|]. split; [reflexivity|].
  pose proof (Z.div_le_mono m m' 10 ltac:(lia) Hm). lia.
Qed.

Lemma jumpToTime_monotone_witness :
  radarData sampleReady = Some sampleManifest /\
  -30 <= 30 /\
  exists i i', currentFrame (jumpToTime (-30) sampleReady) = Int i /\
               currentFrame (jumpToTime 30 sampleReady) = Int i' /\ i <= i'.
Proof.
  split; [reflexivity|]. split; [lia|].
  exact (jumpToTime_monotone sampleReady sampleManifest (-30) 30 eq_refl
           ltac:(lia)).
Defined.

(** X6. Over a loaded manifest a quick-select jump forgets what playback did
    before it: after any tick or control the jump ends in the same state as
    without it. *)
Theorem jumpToTime_forgets s d e m :
  radarData s = Some d ->
  afterLoad e = true ->
  jumpToTime m (handle e s) = jumpToTime m s.
Proof.
  intros Hd He. apply (jumpToTime_same_rest m s (handle e s) d Hd).
  - now apply handle_radarData.
  - now apply handle_loading.
  - now apply handle_error.
Qed.

Lemma jumpToTime_forgets_witness :
  radarData samplePlaying = Some sampleManifest /\
  afterLoad Tick = true /\
  jumpToTime 30 (handle Tick samplePlaying) = jumpToTime 30 samplePlaying.
Proof.
  split; [reflexivity|]. split; [reflexivity|].
  exact (jumpToTime_forgets samplePlaying sampleManifest Tick 30 eq_refl eq_refl).
Defined.

(** ** Minutes *)

(** X7. After a jump to [m] minutes the offset of the index is ten times
    [floor(m / 10)] brought into the range the frames cover, from
    [1 - past.length] to [totalFrames - past.length] tens of minutes. *)
Theorem offset_after_jump s d m :
  radarData s = Some d ->
  1 <= totalFrames s ->
  currentOffset (jumpToTime m s)
    = Int (10 * clamp (1 - pastFrameCount s) (totalFrames s - pastFrameCount s)
                      (m / 10)).
Proof.
  intros Hd HT. pose proof (pastFrameCount_le_total s) as HP.
  unfold currentOffset, jumpToTime, getMinutesOffset, pastFrameCount in *.
  rewrite Hd in *. cbn. rewrite Hd. f_equal.
  unfold clamp.
  destruct (Z.ltb_spec (m / 10) (1 - lengthOr0 (past (radar d))));
    [lia|].
  destruct (Z.ltb_spec (totalFrames s - lengthOr0 (past (radar d))) (m / 10)); lia.
Qed.

Lemma offset_after_jump_witness :
  radarData sampleReady = Some sampleManifest /\
  1 <= totalFrames sampleReady /\
  currentOffset (jumpToTime 60 sampleReady) = Int 20.
Proof.
  split; [reflexivity|]. split; [vm_compute; discriminate|].
  exact (offset_after_jump sampleReady sampleManifest 60 eq_refl
           ltac:(vm_compute; discriminate)).
Defined.

(** Every offset is a whole number of tens of minutes. *)
Lemma currentOffset_tens s off :
  currentOffset s = Int off -> exists k, off = 10 * k.
Proof.
  unfold currentOffset, getMinutesOffset.
  destruct (radarData s) as [d|].
  - destruct (currentFrame s) as [i|]; [|discriminate].
    intros [= <-]. eexists. apply Z.mul_comm.
  - intros [= <-]. now exists 0.
Qed.

Lemma highlighted_offset m s :
  highlighted m s = true <-> currentOffset s = Int m.
Proof.
  unfold highlighted. split.
  - destruct (currentOffset s) as [off|] eqn:Hoff; [|discriminate].
    destruct (currentOffset_tens s off Hoff) as [k ->].
    intros H. f_equal. apply orb_true_iff in H as [H | H]; [|lia].
    apply andb_true_iff in H as [H0 H5]. lia.
  - intros ->. rewrite Z.eqb_refl. apply orb_true_r.
Qed.

(** X9. A quick-select button is drawn active exactly when the offset of the
    index is its number of minutes, so no two buttons are active at once:
    offsets being tens of minutes, the five minutes allowed around "now"
    admit the offset zero alone. *)
Theorem highlight_exclusive s m m' :
  (highlighted m s = true <-> currentOffset s = Int m) /\
  (highlighted m s = true -> highlighted m' s = true -> m = m').
Proof.
  split; [apply highlighted_offset|].
  intros H H'. apply highlighted_offset in H, H'. congruence.
Qed.

(** X8. Pressing a quick-select button for a whole number of tens of minutes
    that the frames reach makes that button the active one. *)
Theorem quickSelect_highlights s d m :
  radarData s = Some d ->
  shown s = true ->
  m mod 10 = 0 ->
  1 - pastFrameCount s <= m / 10 <= totalFrames s - pastFrameCount s ->
  highlighted m (quickSelect m s) = true.
Proof.
  intros Hd Hs Hm Hr. apply highlighted_offset.
  pose proof (Z.div_mod m 10 ltac:(lia)) as Hdiv.
  unfold quickSelect. rewrite Hs.
  unfold currentOffset, jumpToTime, getMinutesOffset, pastFrameCount in *.
  rewrite Hd in *. cbn. rewrite Hd. f_equal. lia.
Qed.

Lemma quickSelect_highlights_witness :
  radarData sampleReady = Some sampleManifest /\
  shown sampleReady = true /\
  (-20) mod 10 = 0 /\
  1 - pastFrameCount sampleReady <= -20 / 10
    <= totalFrames sampleReady - pastFrameCount sampleReady /\
  highlighted (-20) (quickSelect (-20) sampleReady) = true.
Proof.
  assert (Hr : 1 - pastFrameCount sampleReady <= -20 / 10
               <= totalFrames sampleReady - pastFrameCount sampleReady)
    by (vm_compute; split; congruence).
  split; [reflexivity|]. split; [reflexivity|]. split; [reflexivity|].
  split; [exact Hr|].
  exact (quickSelect_highlights sampleReady sampleManifest (-20)
           eq_refl eq_refl eq_refl Hr).
Defined.

(** X10. The four buttons of the older view, each with a test of its own,
    are drawn active exactly when the current view's one test draws the
    button of the same minutes active. *)
Theorem legacy_highlight_agrees b s :
  legacyHighlighted b s = highlighted (legacyMinutes b) s.
Proof.
  unfold legacyHighlighted, highlighted.
  destruct (currentOffset s) as [off|]; [|reflexivity].
  destruct b; cbn; try reflexivity.
  destruct (Z.leb_spec (Z.abs off) 5), (Z.eqb_spec off 0); try reflexivity; lia.
Qed.

(** X11. With a manifest loaded the text under the header goes with the
    side of "now" the index is on: from [past.length] on (where the time
    overlay says "Vorhersage") it announces the forecast with a positive
    number of minutes, at the last past frame it reads "Aktuelle
    Radardaten", before that it gives the minutes gone by, positive too. *)
Theorem rain_text_by_side s d i :
  radarData s = Some d ->
  currentFrame s = Int i ->
  exists t, getRainText s = Some t /\
    (pastFrameCount s <= i ->
       isForecast s = true /\ 0 < (i - pastFrameCount s + 1) * 10 /\
       t = "Vorhersage: " +:+ pretty ((i - pastFrameCount s + 1) * 10)
             +:+ " Minuten in der Zukunft") /\
    (i = pastFrameCount s - 1 ->
       isForecast s = false /\ t = "Aktuelle Radardaten"%string) /\
    (i < pastFrameCount s - 1 ->
       isForecast s = false /\ 0 < (pastFrameCount s - 1 - i) * 10 /\
       t = "Vergangenheit: vor " +:+ pretty ((pastFrameCount s - 1 - i) * 10)
             +:+ " Minuten").
Proof.
  intros Hd Hc.
  unfold getRainText, currentOffset, isForecast, getMinutesOffset, pastFrameCount.
  rewrite Hd, Hc.
  set (P := lengthOr0 (past (radar d))).
  destruct (Z.ltb_spec 0 ((i - P + 1) * 10)) as [Hpos | Hnpos];
    [|destruct (Z.ltb_spec ((i - P + 1) * 10) 0) as [Hneg | Hnneg]];
    (eexists; split; [reflexivity|]);
    repeat split; intros; try lia;
    try (destruct (Z.leb_spec P i); first [reflexivity | lia]);
    try (f_equal; f_equal; f_equal; lia).
Qed.

Lemma rain_text_by_side_witness :
  radarData sampleReady = Some sampleManifest /\
  currentFrame (skipForward sampleReady) = Int 4 /\
  getRainText (skipForward sampleReady)
    = Some "Vorhersage: 20 Minuten in der Zukunft"%string.
Proof.
  split; [reflexivity|]. split; [reflexivity|].
  destruct (rain_text_by_side (skipForward sampleReady) sampleManifest 4
              eq_refl eq_refl) as (t & Ht & Hf & _).
  rewrite Ht. f_equal.
  destruct Hf as (_ & _ & ->); [vm_compute; discriminate|].
  reflexivity.
Defined.

(** ** After the load *)

(** X26. When the manifest that arrives has a past frame, the view opens on
    the last of them: the text reads "Aktuelle Radardaten", the "Jetzt"
    button is the active one, and the frame is not marked as forecast. *)
Theorem load_opens_on_now d s :
  1 <= lengthOr0 (past (radar d)) ->
  getRainText (init (Some d) s) = Some "Aktuelle Radardaten"%string /\
  highlighted 0 (init (Some d) s) = true /\
  isForecast (init (Some d) s) = false /\
  is_Some (currentFrameData (init (Some d) s)).
Proof.
  intros HP.
  assert (Hoff : currentOffset (init (Some d) s) = Int 0).
  { unfold currentOffset, getMinutesOffset. cbn. f_equal. lia. }
  split; [|split; [|split]].
  - unfold getRainText. rewrite Hoff. reflexivity.
  - now apply highlighted_offset.
  - unfold isForecast, pastFrameCount. cbn.
    destruct (Z.leb_spec (lengthOr0 (past (radar d)))
                         (0 `max` (lengthOr0 (past (radar d)) - 1)));
      [lia | reflexivity].
  - apply currentFrameData_in_bounds.
    pose proof (pastFrameCount_le_total (init (Some d) s)) as HT.
    eapply inBounds_intro; [reflexivity|].
    unfold totalFrames, allFrames, pastFrameCount in *. cbn in *. lia.
Qed.

Lemma load_opens_on_now_witness :
  1 <= lengthOr0 (past (radar sampleManifest)) /\
  getRainText sampleReady = Some "Aktuelle Radardaten"%string /\
  highlighted 0 sampleReady = true.
Proof.
  assert (HP : 1 <= lengthOr0 (past (radar sampleManifest)))
    by (vm_compute; discriminate).
  split; [exact HP|].
  destruct (load_opens_on_now sampleManifest initial HP) as (H1 & H2 & _).
  split; [exact H1 | exact H2].
Defined.

Lemma handle_error_cases e s :
  error (handle e s) = if failedLoad e then Some LOAD_ERROR else error s.
Proof.
  destruct e as [[d|]| | | | | |]; cbn; try reflexivity;
    unfold tick, togglePlay, scrub, quickSelect, skipBack, skipForward,
           whenRendered, jumpToTime;
    repeat match goal with
           | |- context [match ?x with _ => _ end] => destruct x eqn:?
           end; reflexivity.
Qed.

(** X27. The view's own error is set by a failed load and by nothing else,
    and nothing clears it: after any events the error message is there
    exactly when one of the loads among them failed, a later load that
    succeeds notwithstanding. *)
Theorem load_error_sticks es :
  error (run es initial) = if existsb failedLoad es then Some LOAD_ERROR else None.
Proof.
  assert (H : forall s,
             error (run es s)
             = if existsb failedLoad es then Some LOAD_ERROR else error s).
  { induction es as [|e es IH]; intros s; [reflexivity|].
    cbn [run fold_left existsb].
    change (fold_left (fun st e => handle e st) es (handle e s))
      with (run es (handle e s)).
    rewrite IH, handle_error_cases.
    destruct (failedLoad e); cbn; [now destruct (existsb failedLoad es) | reflexivity]. }
  apply H.
Qed.

End RadarDisplayFacts.

(* ===================================================================== *)
(** * More facts about the location store *)
(* ===================================================================== *)

Module LocationMoreFacts.
Import LocationStore LocationDisplay LocationFacts.

(** ** The persist effect *)

Lemma persist_writable s st : writable (persist s st) = writable st.
Proof.
  unfold persist, setItem.
  destruct (lat (location s)), (lon (location s)); try reflexivity.
  destruct (writable st) eqn:Hw; cbn; congruence.
Qed.

(** X13. Running the persist effect a second time on the same state changes
    nothing more. *)
Theorem persist_idempotent s st : persist s (persist s st) = persist s st.
Proof.
  unfold persist, setItem.
  destruct (lat (location s)) as [a|], (lon (location s)) as [b|];
    try reflexivity.
  destruct (writable st) eqn:Hw; cbn; [|now rewrite Hw].
  f_equal.
  rewrite (insert_insert_ne _ LOCATION_STORAGE_KEY LEGACY_STORAGE_KEY)
    by (intros H; now apply keys_differ).
  now rewrite !insert_insert_eq.
Qed.

(** X14. The persist effect touches its two keys and no other item. *)
Theorem persist_other_keys s st k :
  k <> LOCATION_STORAGE_KEY ->
  k <> LEGACY_STORAGE_KEY ->
  getItem k (persist s st) = getItem k st.
Proof.
  intros H1 H2. unfold persist, setItem, getItem.
  destruct (lat (location s)), (lon (location s)); try reflexivity.
  destruct (writable st); cbn; [|reflexivity].
  now rewrite !lookup_insert_ne by congruence.
Qed.

Lemma persist_other_keys_witness :
  "wetterpendeln-settings"%string <> LOCATION_STORAGE_KEY /\
  "wetterpendeln-settings"%string <> LEGACY_STORAGE_KEY /\
  getItem "wetterpendeln-settings"
          (persist (updateManual (Fin 50) (Fin 10) "X" 1 initialStore) emptyDisk)
    = getItem "wetterpendeln-settings" emptyDisk.
Proof.
  assert (H1 : "wetterpendeln-settings"%string <> LOCATION_STORAGE_KEY)
    by discriminate.
  assert (H2 : "wetterpendeln-settings"%string <> LEGACY_STORAGE_KEY)
    by discriminate.
  split; [exact H1|]. split; [exact H2|].
  exact (persist_other_keys _ emptyDisk _ H1 H2).
Defined.

Lemma persist_legacy_written s st a b :
  lat (location s) = Some a -> lon (location s) = Some b ->
  writable st = true ->
  storedLegacy (persist s st) = Some (json_of_legacy (location s)).
Proof.
  intros Ha Hb Hw. unfold persist, setItem. rewrite Ha, Hb, Hw. cbn.
  unfold storedLegacy, getItem. cbn. now rewrite lookup_insert_eq.
Qed.

(** X15. When the persist effect writes, the record under the legacy key has
    the coordinates of the record under the primary key, and for [name] its
    [cityLabel]. *)
Theorem legacy_record_agrees s st a b :
  lat (location s) = Some a ->
  lon (location s) = Some b ->
  writable st = true ->
  exists primary legacy,
    storedRecord (persist s st) = Some (JObj primary) /\
    storedLegacy (persist s st) = Some (JObj legacy) /\
    member "lat" legacy = member "lat" primary /\
    member "lon" legacy = member "lon" primary /\
    member "name" legacy = member "cityLabel" primary /\
    member "name" legacy = Some (JStr (cityLabel (location s))).
Proof.
  intros Ha Hb Hw.
  rewrite (persist_written s st a b Ha Hb Hw).
  rewrite (persist_legacy_written s st a b Ha Hb Hw).
  eexists. eexists. split; [reflexivity|]. split; [reflexivity|].
  now repeat split.
Qed.

Lemma legacy_record_agrees_witness :
  writable emptyDisk = true /\
  exists primary legacy,
    storedRecord (persist (updateManual (Fin 50) (Fin 10) "X" 1 initialStore)
                          emptyDisk) = Some (JObj primary) /\
    storedLegacy (persist (updateManual (Fin 50) (Fin 10) "X" 1 initialStore)
                          emptyDisk) = Some (JObj legacy) /\
    member "name" legacy = Some (JStr "X").
Proof.
  destruct (legacy_record_agrees
              (updateManual (Fin 50) (Fin 10) "X" 1 initialStore) emptyDisk
              (Fin 50) (Fin 10) eq_refl eq_refl eq_refl)
    as (primary & legacy & H1 & H2 & _ & _ & _ & H3).
  split; [reflexivity|].
  exists primary, legacy. now repeat split.
Defined.

(** ** Page loads *)

Lemma rehydrate_nothing st s : storedRecord st = None -> rehydrate st s = Some s.
Proof.
  unfold storedRecord, rehydrate.
  destruct (getItem LOCATION_STORAGE_KEY st) as [t|]; [|reflexivity].
  destruct (truthy t); [|reflexivity]. now intros ->.
Qed.

(** X18. When the primary key is absent, holds the empty string, or holds
    text that does not parse, a page load ends with the default state and
    leaves storage as it found it. *)
Theorem mount_without_record st :
  storedRecord st = None ->
  mount st = Some {| store := initialStore; disk := st |}.
Proof.
  intros H. unfold mount. now rewrite (rehydrate_nothing st initialStore H).
Qed.

Lemma mount_without_record_witness :
  storedRecord
    {| items := {[ LOCATION_STORAGE_KEY := Malformed "{lat:" ]}; writable := true |}
    = None /\
  mount {| items := {[ LOCATION_STORAGE_KEY := Malformed "{lat:" ]}; writable := true |}
    = Some {| store := initialStore;
              disk := {| items := {[ LOCATION_STORAGE_KEY := Malformed "{lat:" ]};
                         writable := true |} |}.
Proof.
  assert (H : storedRecord
                {| items := {[ LOCATION_STORAGE_KEY := Malformed "{lat:" ]};
                   writable := true |} = None) by (vm_compute; reflexivity).
  split; [exact H|]. exact (mount_without_record _ H).
Defined.

(** What a page load makes of sound storage. *)
Lemma mount_storedSound st :
  storedSound st ->
  exists s, mount st = Some (saved s st) /\
    finiteState (location s) = true /\
    pairedb (location s) = true /\
    (storedRecord st = Some (json_of_LocationState (location s)) \/
     (s = initialStore /\ storedRecord st = None)).
Proof.
  intros Hst. unfold mount.
  destruct (storedRecord st) as [doc|] eqn:Hdoc.
  - destruct (Hst doc Hdoc) as (l & -> & Hp & Hf).
    rewrite (rehydrate_adopts st initialStore _ l Hdoc (LocationState_roundtrip l Hf)).
    exists (setLocation l initialStore). now repeat split; auto.
  - rewrite (rehydrate_nothing st initialStore Hdoc).
    exists initialStore. now repeat split; auto.
Qed.

(** X16. A page load on storage whose primary key holds nothing readable or
    a record the persist effect wrote leaves that record as it is. *)
Theorem mount_keeps_record st :
  storedSound st ->
  exists w, mount st = Some w /\ storedRecord (disk w) = storedRecord st.
Proof.
  intros Hst.
  destruct (mount_storedSound st Hst) as (s & -> & _ & Hp & Hrec).
  exists (saved s st). split; [reflexivity|]. cbn.
  destruct (persist_skipped s st Hp) as [H | H]; [exact H|].
  destruct Hrec as [Hrec | [-> Hrec]]; [congruence|].
  reflexivity.
Qed.

Lemma mount_keeps_record_witness :
  storedSound emptyDisk /\
  exists w, mount emptyDisk = Some w /\
            storedRecord (disk w) = storedRecord emptyDisk.
Proof.
  split; [exact emptyDisk_storedSound|].
  exact (mount_keeps_record emptyDisk emptyDisk_storedSound).
Defined.

(** ** What is stored is what is shown *)

Lemma saved_synced s st a b :
  lat (location s) = Some a -> lon (location s) = Some b ->
  writable st = true -> synced (saved s st).
Proof.
  intros Ha Hb Hw. split; cbn.
  - now rewrite persist_writable.
  - left. now apply (persist_written s st a b).
Qed.

Lemma mount_synced st :
  storedSound st -> writable st = true ->
  exists w, mount st = Some w /\ sound w /\ synced w.
Proof.
  intros Hst Hw.
  destruct (mount_storedSound st Hst) as (s & Hm & Hf & Hp & Hrec).
  exists (saved s st). split; [exact Hm|].
  split; [now apply saved_sound|].
  split; cbn; [now rewrite persist_writable|].
  destruct Hrec as [Hrec | [-> Hrec]].
  - left. destruct (persist_skipped s st Hp) as [H | H]; congruence.
  - right. split; [reflexivity|]. exact Hrec.
Qed.

Lemma act_synced a w :
  finiteAction a = true -> sound w -> synced w ->
  exists w', act a w = Some w' /\ sound w' /\ synced w'.
Proof.
  intros Ha Hs [Hw Hrec].
  destruct (act_sound a w Ha Hs) as (w' & Hact & Hs').
  exists w'. split; [exact Hact|]. split; [exact Hs'|].
  destruct a as [la lo label now | geo rev now | | ]; cbn in Hact.
  - injection Hact as <-. now apply (saved_synced _ _ la lo).
  - destruct geo as [|la lo|code]; injection Hact as <-.
    + now split.
    + apply (saved_synced _ _ la lo); [now destruct rev..|exact Hw].
    + now split.
  - injection Hact as <-. now split.
  - destruct Hs as (_ & _ & Hst).
    destruct (mount_synced (disk w) Hst Hw) as (w1 & Hm & _ & Hsy).
    congruence.
Qed.

Lemma acts_synced l : forall w,
  forallb finiteAction l = true -> sound w -> synced w ->
  exists w', acts l w = Some w' /\ sound w' /\ synced w'.
Proof.
  induction l as [|a l IH]; intros w Hl Hs Hsy; [now exists w|].
  cbn in Hl. apply andb_true_iff in Hl as [Ha Hl].
  destruct (act_synced a w Ha Hs Hsy) as (w1 & Hact & Hs1 & Hsy1).
  cbn [acts]. rewrite Hact. now apply IH.
Qed.

Lemma acts_app l1 l2 w :
  acts (l1 ++ l2) w = match acts l1 w with Some w' => acts l2 w' | None => None end.
Proof.
  revert w. induction l1 as [|a l1 IH]; intros w; [reflexivity|].
  cbn. destruct (act a w); [apply IH | reflexivity].
Qed.

(** A reload of a provider that is in step with its storage gives back the
    location it had. *)
Lemma reload_synced w :
  sound w -> synced w ->
  exists w', mount (disk w) = Some w' /\
             location (store w') = location (store w).
Proof.
  intros (_ & Hf & _) [_ Hrec]. unfold mount.
  destruct Hrec as [Hrec | [Hdef Hrec]].
  - rewrite (rehydrate_adopts _ initialStore _ _ Hrec
               (LocationState_roundtrip _ Hf)).
    eexists. split; reflexivity.
  - rewrite (rehydrate_nothing _ initialStore Hrec).
    eexists. split; [reflexivity|]. cbn. now rewrite Hdef.
Qed.

(** X17. On storage that takes writes, after a page load and any actions with
    finite coordinates, reloading the page gives back the location the
    provider held: every update, manual or from GPS, outlives a reload, and
    a failed GPS request or [clearError] loses nothing. *)
Theorem reload_keeps_location st l :
  storedSound st ->
  writable st = true ->
  forallb finiteAction l = true ->
  exists w w',
    session st l = Some w /\
    session st (l ++ [Reload]) = Some w' /\
    location (store w') = location (store w).
Proof.
  intros Hst Hw Hl. unfold session.
  destruct (mount_synced st Hst Hw) as (w0 & -> & Hs0 & Hsy0).
  destruct (acts_synced l w0 Hl Hs0 Hsy0) as (w & Hacts & Hs & Hsy).
  destruct (reload_synced w Hs Hsy) as (w' & Hm & Hloc).
  exists w, w'. split; [exact Hacts|]. split; [|exact Hloc].
  rewrite acts_app, Hacts. cbn. now rewrite Hm.
Qed.

Lemma reload_keeps_location_witness :
  storedSound emptyDisk /\
  writable emptyDisk = true /\
  forallb finiteAction sampleActions = true /\
  exists w w',
    session emptyDisk sampleActions = Some w /\
    session emptyDisk (sampleActions ++ [Reload]) = Some w' /\
    location (store w') = location (store w).
Proof.
  split; [exact emptyDisk_storedSound|]. split; [reflexivity|].
  split; [reflexivity|].
  exact (reload_keeps_location emptyDisk sampleActions
           emptyDisk_storedSound eq_refl eq_refl).
Defined.

(** ** GPS requests *)

Lemma orFallback_nonempty n : orFallback n <> EmptyString.
Proof.
  unfold orFallback. destruct n as [n|]; [|discriminate].
  destruct (String.eqb_spec n EmptyString); [discriminate | assumption].
Qed.

(** X19. After a GPS fix the city label is never empty, whatever reverse
    geocoding gave (a name, an empty name, none, or an exception), so the
    header shows the label and not its "Standort wählen" placeholder. *)
Theorem gps_label_nonempty latitude longitude rev now s :
  let l := location (fst (updateFromGPS (Position latitude longitude) rev now s)) in
  cityLabel l <> EmptyString /\ headerLabel l = cityLabel l.
Proof.
  cbn zeta.
  assert (H : cityLabel (location (fst (updateFromGPS (Position latitude longitude)
                                          rev now s))) <> EmptyString).
  { destruct rev as [|n]; cbn; [discriminate | apply orFallback_nonempty]. }
  split; [exact H|]. unfold headerLabel.
  now destruct (String.eqb_spec
                  (cityLabel (location (fst (updateFromGPS
                     (Position latitude longitude) rev now s)))) EmptyString).
Qed.

(** X20. No error outlives a GPS request: the [error] it leaves does not
    depend on the store it started from, it is null exactly when a position
    was obtained, and it is a message of this request in every other
    case. *)
Theorem gps_error_iff_no_position geo rev now s s' :
  error (fst (updateFromGPS geo rev now s))
    = error (fst (updateFromGPS geo rev now s')) /\
  (error (fst (updateFromGPS geo rev now s)) = None
   <-> exists latitude longitude, geo = Position latitude longitude) /\
  (forall code, geo = PositionError code ->
     error (fst (updateFromGPS geo rev now s)) = Some (errorMessage code)) /\
  (geo = Unsupported ->
     error (fst (updateFromGPS geo rev now s))
     = Some "Geolocation wird von Ihrem Browser nicht unterstützt."%string).
Proof.
  destruct geo as [|la lo|code]; cbn.
  - split; [reflexivity|]. split; [|split; [discriminate | reflexivity]].
    split; [discriminate | intros (la & lo & H); discriminate H].
  - split; [now destruct rev|]. split; [|split; discriminate].
    split; [intros _; now exists la, lo | intros _; now destruct rev].
  - split; [reflexivity|]. split; [|split; [now intros ? [= ->] | discriminate]].
    split; [discriminate | intros (la & lo & H); discriminate H].
Qed.

(** X21. The [clearError()] that [handleCenterOnLocation] calls first makes no
    difference: the button ends in the state, and the promise in the
    settlement, of [updateFromGPS] alone. *)
Theorem handleCenterOnLocation_is_updateFromGPS geo rev now s :
  handleCenterOnLocation geo rev now s = updateFromGPS geo rev now s.
Proof.
  unfold handleCenterOnLocation. destruct geo as [|la lo|code]; [reflexivity| |].
  - now destruct rev.
  - reflexivity.
Qed.

(** ** The loading flag *)

Lemma act_isLoading a w w' :
  act a w = Some w' -> isLoading (store w) = false -> isLoading (store w') = false.
Proof.
  destruct a as [la lo label now | geo rev now | | ]; cbn.
  - intros [= <-]. auto.
  - destruct geo as [|la lo|code]; intros [= <-]; cbn; auto.
  - intros [= <-]. auto.
  - unfold mount, rehydrate.
    destruct (getItem LOCATION_STORAGE_KEY (disk w)) as [t|]; [|now intros [= <-]].
    destruct (truthy t); [|now intros [= <-]].
    destruct (JSON_parse t) as [doc|]; [|now intros [= <-]].
    destruct (LocationState_of_json doc); [now intros [= <-] | discriminate].
Qed.

(** X22. Between actions the store is never left loading: a page load starts
    with [isLoading] false, and each GPS request, whether it ends in a fix, in
    an error or finds no geolocation at all, ends with it false again. *)
Theorem never_left_loading st l w :
  session st l = Some w -> isLoading (store w) = false.
Proof.
  unfold session. destruct (mount st) as [w0|] eqn:Hm; [|discriminate].
  assert (H0 : isLoading (store w0) = false).
  { apply (act_isLoading Reload {| store := initialStore; disk := st |} w0);
      [exact Hm | reflexivity]. }
  clear Hm. revert w0 H0. induction l as [|a l IH]; intros w0 H0; cbn.
  - now intros [= <-].
  - destruct (act a w0) as [w1|] eqn:Ha; [|discriminate].
    apply IH. now apply (act_isLoading a w0 w1).
Qed.

Lemma never_left_loading_witness :
  exists w, session emptyDisk sampleActions = Some w /\
            isLoading (store w) = false.
Proof.
  destruct (session emptyDisk sampleActions) as [w|] eqn:Hs.
  - exists w. split; [reflexivity|].
    exact (never_left_loading emptyDisk sampleActions w Hs).
  - vm_compute in Hs. discriminate Hs.
Defined.

(** ** The map centre *)

(** X23. With [lat] and [lon] both present or both absent, the radar view is
    centred on the stored position or on [DEFAULT_CENTER], never on a
    latitude from one and a longitude from the other. *)
Theorem currentCenter_whole l :
  paired l ->
  (lat l = Some (fst (currentCenter l)) /\ lon l = Some (snd (currentCenter l)))
  \/ (lat l = None /\ lon l = None /\ currentCenter l = DEFAULT_CENTER).
Proof.
  unfold currentCenter.
  intros [[-> ->] | (a & b & -> & ->)]; [right | left]; now repeat split.
Qed.

Lemma currentCenter_whole_witness :
  paired DEFAULT_LOCATION /\ currentCenter DEFAULT_LOCATION = DEFAULT_CENTER.
Proof.
  split; [exact DEFAULT_LOCATION_paired|].
  destruct (currentCenter_whole DEFAULT_LOCATION DEFAULT_LOCATION_paired)
    as [[H _] | (_ & _ & H)]; [discriminate H | exact H].
Defined.

(** Without that, the centre is mixed: the latitude of the record and the
    longitude of the default. *)
Example currentCenter_partial :
  exists s, rehydrate partialDisk initialStore = Some s /\
            currentCenter (location s) = (Fin 50, snd DEFAULT_CENTER).
Proof. eexists. split; [vm_compute; reflexivity | reflexivity]. Qed.

End LocationMoreFacts.

(* ===================================================================== *)
(** * Facts about the older view's location *)
(* ===================================================================== *)

Module LegacyFacts.
Import LegacyView.

(** X24. The older view and the store stay in step over GPS requests: if the
    older view holds the store's location in its own format, then after the
    same request with the same reverse-geocoding answer it does again. A fix
    sets both under the same name, a failure changes neither. *)
Theorem legacy_tracks_store geo rev now v s :
  location v = ofLocationState (LocationStore.location s) ->
  location (handleGetGPS geo rev v)
    = ofLocationState
        (LocationStore.location (fst (LocationStore.updateFromGPS geo rev now s))).
Proof.
  intros H. destruct geo as [|la lo|code]; cbn; [exact H| |exact H].
  now destruct rev.
Qed.

Lemma legacy_tracks_store_witness :
  location {| location := None; gpsLoading := false; error := None |}
    = ofLocationState (LocationStore.location LocationStore.initialStore) /\
  location (handleGetGPS
              (LocationStore.Position (LocationStore.Fin 50) (LocationStore.Fin 10))
              (LocationStore.Name (Some "Kassel"%string))
              {| location := None; gpsLoading := false; error := None |})
    = Some {| lat := LocationStore.Fin 50; lon := LocationStore.Fin 10;
              name := "Kassel" |}.
Proof.
  split; [reflexivity|].
  exact (legacy_tracks_store
           (LocationStore.Position (LocationStore.Fin 50) (LocationStore.Fin 10))
           (LocationStore.Name (Some "Kassel"%string)) 0
           {| location := None; gpsLoading := false; error := None |}
           LocationStore.initialStore eq_refl).
Defined.

(** X25. The older view always comes out of [init] with a location. A stored
    last location wins over the settings and the geocoder; without one, and
    with both settings empty or the geocoder failing, the view is centred on
    the point the current view has as [DEFAULT_CENTER]. *)
Theorem initLocation_result lastLocation settings geocode s :
  exists l, location (initLocation lastLocation settings geocode s) = Some l /\
    (forall last, lastLocation = Some last -> l = last) /\
    (lastLocation = None ->
     orElse (defaultLocation settings) (startOrt settings) = EmptyString \/
     geocode (orElse (defaultLocation settings) (startOrt settings)) = None ->
     l = GERMANY /\ (lat l, lon l) = LocationDisplay.DEFAULT_CENTER).
Proof.
  unfold initLocation. destruct lastLocation as [last|].
  - exists last. split; [reflexivity|]. split; [now intros ? [= ->] | discriminate].
  - destruct (String.eqb_spec
                (orElse (defaultLocation settings) (startOrt settings)) EmptyString)
      as [He | Hne].
    + exists GERMANY. split; [reflexivity|]. split; [discriminate | now split].
    + destruct (geocode (orElse (defaultLocation settings) (startOrt settings)))
        as [loc|] eqn:Hg.
      * eexists. split; [reflexivity|]. split; [discriminate|].
        intros _ [He | Hnone]; [contradiction | discriminate].
      * exists GERMANY. split; [reflexivity|]. split; [discriminate | now split].
Qed.

End LegacyFacts.

(* ===================================================================== *)
(** * Facts about the tile coordinates in double arithmetic *)
(* ===================================================================== *)

Module TileDoublesFacts.
Import Tile TileDoubles.

(** ** [Math.floor] *)



(** ** The x coordinate *)





(** ** The claim *)




End TileDoublesFacts.
